(** * chess-image-generator: the board renderer and its position model

    A shallow embedding of [src/chess-image-generator.js].  The generator
    object is a record, its methods are functions from the object to the
    updated object and a result, and the 2D canvas is the list of drawing
    calls issued on it.

    Numbers.  Loop indices, ranks and board columns are integers ([Z]).
    Pixel quantities are exact rationals ([Q]); NaN is [None].  For an
    integer [size] and integer paddings below 2^49 the pixel expressions
    of the cells and of the arrow ends (division by 8 and by 2, products
    with 0..8, sums) are exact in IEEE double arithmetic, so [Q] agrees
    with the program there; the arrow width [sq / 10] is only handed on
    to [drawArrow]. *)

From Stdlib Require Import ZArith QArith Lqa String Ascii List Bool.
From Stdlib Require Import Decimal DecimalString.
From stdpp Require Import base gmap strings list fin_maps.

Local Open Scope string_scope.
Local Open Scope Z_scope.

(** ** JavaScript primitives used by the generator *)

Module Js.

(** Strings are sequences of code units below 256 (the Latin-1 range);
    characters beyond it are outside this embedding.

    [String.prototype.toLowerCase] on such a code unit: A..Z and the
    accented capitals U+00C0..U+00DE (U+00D7, the multiplication sign,
    apart) move 32 up, every other unit stays. *)
Definition lowerChar (c : ascii) : ascii :=
  let n := N_of_ascii c in
  if (((65 <=? n) && (n <=? 90))
      || ((192 <=? n) && (n <=? 222) && negb (n =? 215)))%N
  then ascii_of_N (n + 32) else c.

Fixpoint toLowerCase (s : string) : string :=
  match s with
  | EmptyString => EmptyString
  | String c r => String (lowerChar c) (toLowerCase r)
  end.

(** [String.prototype.includes]: the needle occurs as a substring. *)
Fixpoint includes (hay needle : string) : bool :=
  String.prefix needle hay ||
  match hay with
  | EmptyString => false
  | String _ r => includes r needle
  end.

(** [Array.prototype.includes] on an array of strings. *)
Definition arrayIncludes (l : list string) (x : string) : bool :=
  existsb (String.eqb x) l.

(** [s[k]]: the character at index [k], [None] for [undefined]. *)
Definition charAt (s : string) (k : Z) : option ascii :=
  if k <? 0 then None else String.get (Z.to_nat k) s.

(** Decimal rendering of an integer-valued number. *)
Definition numToString (z : Z) : string :=
  NilZero.string_of_int (Z.to_int z).

(** [c + n] for a one-character string or [undefined] [c] and a number
    [n]: string concatenation, and NaN ([None]) when [c] is
    [undefined]. *)
Definition charPlusNum (c : option ascii) (n : Z) : option string :=
  match c with
  | Some a => Some (String a (numToString n))
  | None => None
  end.

Definition isWhitespace (c : ascii) : bool :=
  let n := N_of_ascii c in
  ((n =? 32) || ((9 <=? n) && (n <=? 13)))%N.

(** ToNumber of a one-character string or [undefined]: a digit is its
    value, white space is 0, anything else is NaN. *)
Definition toNumber (c : option ascii) : option Z :=
  match c with
  | None => None
  | Some a =>
      let n := N_of_ascii a in
      if ((48 <=? n) && (n <=? 57))%N then Some (Z.of_N n - 48)
      else if isWhitespace a then Some 0
      else None
  end.

(** Truthiness, per type of value. *)
Class Truthy (A : Type) := truthy : A -> bool.

#[global] Instance truthy_number : Truthy Q := fun q => negb (Qeq_bool q 0).
#[global] Instance truthy_string : Truthy string :=
  fun s => negb (String.eqb s "").
#[global] Instance truthy_bool : Truthy bool := fun b => b.

(** [x || d] where [x] is a possibly absent property. *)
Definition or {A} `{Truthy A} (x : option A) (d : A) : A :=
  match x with
  | Some v => if truthy v then v else d
  | None => d
  end.

End Js.

(** ** Constants of [config/index.js] and [arrow.js] *)

Module Config.

(** Modelled from the spec: [cols] of config/index.js, the fixed ordered
    list of the 8 file letters. *)
Definition cols : string := "abcdefgh".

(** Modelled from the spec: [white] of config/index.js, the piece
    letters in upper case (upper case = white). *)
Definition white : string := "PBNRQK".

(** Modelled from the spec: [black] of config/index.js, the piece
    letters in lower case (lower case = black; the lower-cased letter
    is the piece kind). *)
Definition black : string := "pbnrqk".

Fixpoint indexOf (c : ascii) (s : string) (k : Z) : option Z :=
  match s with
  | EmptyString => None
  | String d r => if Ascii.eqb c d then Some k else indexOf c r (k + 1)
  end.

(** Modelled from the spec: [col2n] of arrow.js, the table that resolves
    a file letter to its board column index, inverse of indexing
    [cols]; [None] is [undefined]. *)
Definition col2n (c : option ascii) : option Z :=
  match c with
  | Some a => indexOf a cols 0
  | None => None
  end.

End Config.

(** ** The rules-engine collaborator (chess.js) *)

Record Piece := { type : string; color : string }.

#[global] Instance Piece_eq_dec : EqDecision Piece.
Proof. solve_decision. Defined.

Module Chess.

(** The collaborator is used through [clear], [put], [get], [load] and
    [load_pgn] only.  Its state is the board, a finite map from square
    names to pieces, and [kings], the square it has recorded for the king
    of a colour; the two parsers are taken from the environment below. *)
Record board := {
  squares : gmap string Piece;
  kings : gmap string string
}.

(** [b !! s]: the piece the board holds under the name [s]. *)
#[global] Instance board_lookup : Lookup string Piece board :=
  fun s b => squares b !! s.

(** The 64 keys of the board: a file letter a..h and a rank digit
    1..8. *)
Definition isSquare (sq : string) : bool :=
  match sq with
  | String f (String r EmptyString) =>
      let nf := N_of_ascii f in
      let nr := N_of_ascii r in
      ((97 <=? nf) && (nf <=? 104) && (49 <=? nr) && (nr <=? 56))%N
  | _ => false
  end.

(** [clear()]: no piece, no king recorded. *)
Definition clear : board := {| squares := ∅; kings := ∅ |}.

(** The piece symbols [put] accepts. *)
Definition symbols : string := "pnbrqkPNBRQK".

(** The test of [put] on a king: the colour is "w" or "b" and no king of
    that colour is recorded on another square. *)
Definition kingAllowed (p : Piece) (s : string) (b : board) : bool :=
  if String.eqb (type p) "k" then
    (String.eqb (color p) "w" || String.eqb (color p) "b") &&
    match kings b !! color p with
    | Some k => String.eqb k s
    | None => true
    end
  else true.

(** [put(piece, square)]: refuses a type whose lower case is not among
    the symbols, a square that does not exist ([None] is a square
    argument that is not a string) and a second king of a colour;
    otherwise stores the piece and, for a king, records its square. *)
Definition put (p : Piece) (sq : option string) (b : board) : board :=
  if negb (Js.includes symbols (Js.toLowerCase (type p))) then b
  else
    match sq with
    | Some s =>
        if isSquare s && kingAllowed p s b then
          {| squares := <[s := p]> (squares b);
             kings := if String.eqb (type p) "k"
                      then <[color p := s]> (kings b)
                      else kings b |}
        else b
    | None => b
    end.

(** [get(square)]: the piece on the square, [None] for [null]. *)
Definition get (sq : option string) (b : board) : option Piece :=
  match sq with
  | Some s => b !! s
  | None => None
  end.

End Chess.

(** ** The generator object *)

(** [padding] is a four-element array: top, right, bottom, left. *)
Record Padding := { p0 : Q; p1 : Q; p2 : Q; p3 : Q }.

#[global] Instance truthy_padding : Js.Truthy Padding := fun _ => true.

Record Arrow := { from : string; to : string; arrow_color : string }.

Record Options := {
  opt_size : option Q;
  opt_padding : option Padding;
  opt_light : option string;
  opt_dark : option string;
  opt_highlight : option string;
  opt_style : option string;
  opt_flipped : option bool
}.

Definition withSize (v : option Q) (o : Options) : Options :=
  {| opt_size := v; opt_padding := opt_padding o; opt_light := opt_light o;
     opt_dark := opt_dark o; opt_highlight := opt_highlight o;
     opt_style := opt_style o; opt_flipped := opt_flipped o |}.

Definition withLight (v : option string) (o : Options) : Options :=
  {| opt_size := opt_size o; opt_padding := opt_padding o; opt_light := v;
     opt_dark := opt_dark o; opt_highlight := opt_highlight o;
     opt_style := opt_style o; opt_flipped := opt_flipped o |}.

Definition withDark (v : option string) (o : Options) : Options :=
  {| opt_size := opt_size o; opt_padding := opt_padding o;
     opt_light := opt_light o; opt_dark := v;
     opt_highlight := opt_highlight o; opt_style := opt_style o;
     opt_flipped := opt_flipped o |}.

Definition withHighlight (v : option string) (o : Options) : Options :=
  {| opt_size := opt_size o; opt_padding := opt_padding o;
     opt_light := opt_light o; opt_dark := opt_dark o; opt_highlight := v;
     opt_style := opt_style o; opt_flipped := opt_flipped o |}.

Definition withStyle (v : option string) (o : Options) : Options :=
  {| opt_size := opt_size o; opt_padding := opt_padding o;
     opt_light := opt_light o; opt_dark := opt_dark o;
     opt_highlight := opt_highlight o; opt_style := v;
     opt_flipped := opt_flipped o |}.

Definition withFlipped (v : option bool) (o : Options) : Options :=
  {| opt_size := opt_size o; opt_padding := opt_padding o;
     opt_light := opt_light o; opt_dark := opt_dark o;
     opt_highlight := opt_highlight o; opt_style := opt_style o;
     opt_flipped := v |}.

Module Gen.

(** The fields of [this].  [arrows] is [None] while the property is
    [undefined]. *)
Record t := {
  chess : Chess.board;
  highlightedSquares : list string;
  arrows : option (list Arrow);
  size : Q;
  padding : Padding;
  light : string;
  dark : string;
  highlight : string;
  style : string;
  flipped : bool;
  ready : bool
}.

Definition set_chess (b : Chess.board) (g : t) : t :=
  {| chess := b; highlightedSquares := highlightedSquares g;
     arrows := arrows g; size := size g; padding := padding g;
     light := light g; dark := dark g; highlight := highlight g;
     style := style g; flipped := flipped g; ready := ready g |}.

Definition set_ready (r : bool) (g : t) : t :=
  {| chess := chess g; highlightedSquares := highlightedSquares g;
     arrows := arrows g; size := size g; padding := padding g;
     light := light g; dark := dark g; highlight := highlight g;
     style := style g; flipped := flipped g; ready := r |}.

Definition set_arrows (a : option (list Arrow)) (g : t) : t :=
  {| chess := chess g; highlightedSquares := highlightedSquares g;
     arrows := a; size := size g; padding := padding g;
     light := light g; dark := dark g; highlight := highlight g;
     style := style g; flipped := flipped g; ready := ready g |}.

Definition set_highlightedSquares (h : list string) (g : t) : t :=
  {| chess := chess g; highlightedSquares := h;
     arrows := arrows g; size := size g; padding := padding g;
     light := light g; dark := dark g; highlight := highlight g;
     style := style g; flipped := flipped g; ready := ready g |}.

Definition set_flipped (f : bool) (g : t) : t :=
  {| chess := chess g; highlightedSquares := highlightedSquares g;
     arrows := arrows g; size := size g; padding := padding g;
     light := light g; dark := dark g; highlight := highlight g;
     style := style g; flipped := f; ready := ready g |}.

End Gen.

(** What the generator takes from outside this file: the defaults and the
    sprite table of config/index.js, the parsers and the start position of
    chess.js, and the sprite loader of node-canvas. *)
Record Env := {
  defaultSize : Q;
  defaultPadding : Padding;
  defaultLight : string;
  defaultDark : string;
  defaultHighlight : string;
  defaultStyle : string;
  (** [filePaths[key]], [None] for [undefined] *)
  filePaths : string -> option string;
  (** [new Chess()] *)
  newChess : Chess.board;
  (** [chess.load(fen)]: whether the notation was accepted, and the board
      the call leaves *)
  load : string -> Chess.board -> bool * Chess.board;
  (** [chess.load_pgn(pgn)] *)
  load_pgn : string -> Chess.board -> bool * Chess.board;
  (** [loadImage(file)]: whether the sprite file loads *)
  loadImage : string -> bool
}.

(** Exceptions: [new Error(msg)], the TypeError of a method call on
    [undefined], and a rejection of the sprite loader. *)
Inductive Exn :=
| Error (msg : string)
| TypeError
| ImageError (file : string).

Inductive Result (A : Type) :=
| Ok (a : A)
| Throw (e : Exn).
Arguments Ok {A} a.
Arguments Throw {A} e.

Definition bind {A B} (r : Result A) (k : A -> Result B) : Result B :=
  match r with
  | Ok a => k a
  | Throw e => Throw e
  end.

Notation "'do' x <- r ; k" := (bind r (fun x => k))
  (at level 10, x name, r at level 100, k at level 200).

(** ** Construction and loading *)

(** [function ChessImageGenerator(options = {})]. *)
Definition ChessImageGenerator (E : Env) (options : Options) : Gen.t :=
  {| Gen.chess := newChess E;
     Gen.highlightedSquares := [];
     Gen.arrows := None;
     Gen.size := Js.or (opt_size options) (defaultSize E);
     Gen.padding := Js.or (opt_padding options) (defaultPadding E);
     Gen.light := Js.or (opt_light options) (defaultLight E);
     Gen.dark := Js.or (opt_dark options) (defaultDark E);
     Gen.highlight := Js.or (opt_highlight options) (defaultHighlight E);
     Gen.style := Js.or (opt_style options) (defaultStyle E);
     Gen.flipped := Js.or (opt_flipped options) false;
     Gen.ready := false |}.

(** The options object [{}]. *)
Definition noOptions : Options :=
  {| opt_size := None; opt_padding := None; opt_light := None;
     opt_dark := None; opt_highlight := None; opt_style := None;
     opt_flipped := None |}.

Definition pgnError : Exn := Error "PGN could not be read successfully".
Definition fenError : Exn := Error "FEN could not be read successfully".
Definition notReady : Exn := Error "Load a position first".

(** [loadPGN(pgn)]. *)
Definition loadPGN (E : Env) (pgn : string) (this : Gen.t)
  : Gen.t * Result unit :=
  let (accepted, b) := load_pgn E pgn (Gen.chess this) in
  let this := Gen.set_chess b this in
  if negb accepted then (this, Throw pgnError)
  else (Gen.set_ready true this, Ok tt).

(** [loadFEN(fen)]. *)
Definition loadFEN (E : Env) (fen : string) (this : Gen.t)
  : Gen.t * Result unit :=
  let (accepted, b) := load E fen (Gen.chess this) in
  let this := Gen.set_chess b this in
  if negb accepted then (this, Throw fenError)
  else (Gen.set_ready true this, Ok tt).

(** [addArrows(arrows)]. *)
Definition addArrows (arrows : list Arrow) (this : Gen.t) : Gen.t :=
  Gen.set_arrows (Some arrows) this.

(** The guard of [loadArray] on a cell. *)
Definition isPieceCode (cell : string) : bool :=
  negb (String.eqb cell "") &&
  Js.includes Config.black (Js.toLowerCase cell).

(** The object literal [loadArray] passes to [put]. *)
Definition pieceOfCode (cell : string) : Piece :=
  {| type := Js.toLowerCase cell;
     color := if Js.includes Config.white cell then "w" else "b" |}.

(** The square name [cols[j] + (8 - i)]. *)
Definition squareOfCell (i j : Z) : option string :=
  Js.charPlusNum (Js.charAt Config.cols j) (8 - i).

(** The inner loop of [loadArray], from column [j] on. *)
Fixpoint loadArrayRow (cells : list string) (i j : Z) (b : Chess.board)
  : Chess.board :=
  match cells with
  | [] => b
  | cell :: rest =>
      let b :=
        if isPieceCode cell
        then Chess.put (pieceOfCode cell) (squareOfCell i j) b
        else b in
      loadArrayRow rest i (j + 1) b
  end.

(** The outer loop of [loadArray], from row [i] on. *)
Fixpoint loadArrayRows (rows : list (list string)) (i : Z) (b : Chess.board)
  : Chess.board :=
  match rows with
  | [] => b
  | cells :: rest => loadArrayRows rest (i + 1) (loadArrayRow cells i 0 b)
  end.

(** [loadArray(array)]. *)
Definition loadArray (array : list (list string)) (this : Gen.t) : Gen.t :=
  let b := loadArrayRows array 0 Chess.clear in
  Gen.set_ready true (Gen.set_chess b this).

(** [highlightSquares(array)]. *)
Definition highlightSquares (array : list string) (this : Gen.t) : Gen.t :=
  Gen.set_highlightedSquares array this.

(** ** Rendering *)

(** The calls issued on the 2D context. *)
Inductive DrawOp :=
| FillRect (x y w h : Q) (fillStyle : string)
| DrawImage (file : string) (x y w h : Q)
| DrawArrow (fromX fromY toX toY : option Q) (r : Q) (color : string).

Record Canvas := { width : Q; height : Q; ops : list DrawOp }.

Local Open Scope Q_scope.

Definition row (flipped : bool) (r : Z) : Z :=
  if flipped then (r + 1)%Z else (7 - r + 1)%Z.

Definition col (flipped : bool) (c : Z) : Z :=
  if flipped then c else (7 - c)%Z.

(** [cols[col(j)] + row(i)]. *)
Definition coords (flipped : bool) (i j : Z) : option string :=
  Js.charPlusNum (Js.charAt Config.cols (col flipped j)) (row flipped i).

Definition n (z : Z) : Q := inject_Z z.

(** The dark fill of cell (i, j). *)
Definition darkFill (this : Gen.t) (i j : Z) : list DrawOp :=
  if (Z.rem (i + j) 2 =? 0)%Z then
    [FillRect
       ((Gen.size this / 8) * n (7 - j + 1) - Gen.size this / 8
        + p3 (Gen.padding this))
       ((Gen.size this / 8) * n i + p0 (Gen.padding this))
       (Gen.size this / 8)
       (Gen.size this / 8)
       (Gen.dark this)]
  else [].

(** The highlight fill of cell (i, j). *)
Definition highlightFill (this : Gen.t) (i j : Z) : list DrawOp :=
  match coords (Gen.flipped this) i j with
  | Some sq =>
      if Js.arrayIncludes (Gen.highlightedSquares this) sq then
        [FillRect
           ((Gen.size this / 8) * n (7 - j + 1) - Gen.size this / 8
            + p3 (Gen.padding this))
           ((Gen.size this / 8) * n i + p0 (Gen.padding this))
           (Gen.size this / 8)
           (Gen.size this / 8)
           (Gen.highlight this)]
      else []
  | None => []
  end.

(** The sprite file of a piece, relative to the module directory. *)
Definition spriteFile (E : Env) (this : Gen.t) (piece : Piece) : string :=
  "resources/" ++ Gen.style this ++ "/" ++
  default "undefined" (filePaths E (color piece ++ type piece)) ++ ".png".

(** The sprite of cell (i, j); the loader may reject. *)
Definition pieceDraw (E : Env) (this : Gen.t) (i j : Z)
  : Result (list DrawOp) :=
  match Chess.get (coords (Gen.flipped this) i j) (Gen.chess this) with
  | Some piece =>
      if negb (String.eqb (type piece) "") &&
         Js.includes Config.black (Js.toLowerCase (type piece))
      then
        let image := spriteFile E this piece in
        if loadImage E image then
          Ok [DrawImage image
                ((Gen.size this / 8) * n (7 - j + 1) - Gen.size this / 8
                 + p3 (Gen.padding this))
                ((Gen.size this / 8) * n i + p0 (Gen.padding this))
                (Gen.size this / 8)
                (Gen.size this / 8)]
        else Throw (ImageError image)
      else Ok []
  | None => Ok []
  end.

(** One turn of the inner loop body. *)
Definition drawCell (E : Env) (this : Gen.t) (i j : Z)
  : Result (list DrawOp) :=
  do sprite <- pieceDraw E this i j;
  Ok (darkFill this i j ++ highlightFill this i j ++ sprite)%list.

(** A loop whose body may throw: the calls issued, in order. *)
Fixpoint forEach {A} (body : A -> Result (list DrawOp)) (l : list A)
  : Result (list DrawOp) :=
  match l with
  | [] => Ok []
  | x :: rest =>
      do first <- body x;
      do others <- forEach body rest;
      Ok (first ++ others)%list
  end.

(** [for i in 0..7, for j in 0..7]. *)
Definition drawBoard (E : Env) (this : Gen.t) : Result (list DrawOp) :=
  forEach (fun i => forEach (fun j => drawCell E this i j) (seqZ 0 8))
          (seqZ 0 8).

(** [rc2xy(a) = a * sq - sq / 2], with NaN for a NaN argument. *)
Definition rc2xy (this : Gen.t) (a : option Z) : option Q :=
  match a with
  | Some a => Some (n a * (Gen.size this / 8) - (Gen.size this / 8) / 2)
  | None => None
  end.

(** [row(square[1] - 1)]. *)
Definition arrowR (flipped : bool) (square : string) : option Z :=
  match Js.toNumber (Js.charAt square 1) with
  | Some k => Some (row flipped (k - 1))
  | None => None
  end.

(** [8 - col(col2n[square[0]])]. *)
Definition arrowC (flipped : bool) (square : string) : option Z :=
  match Config.col2n (Js.charAt square 0) with
  | Some c => Some (8 - col flipped c)%Z
  | None => None
  end.

Definition addQ (a : option Q) (b : Q) : option Q :=
  match a with
  | Some a => Some (a + b)
  | None => None
  end.

(** The call of [drawArrow] for one arrow. *)
Definition arrowOp (this : Gen.t) (arrow : Arrow) : DrawOp :=
  let fromR := arrowR (Gen.flipped this) (from arrow) in
  let fromC := arrowC (Gen.flipped this) (from arrow) in
  let toR := arrowR (Gen.flipped this) (to arrow) in
  let toC := arrowC (Gen.flipped this) (to arrow) in
  DrawArrow
    (addQ (rc2xy this fromC) (p3 (Gen.padding this)))
    (addQ (rc2xy this fromR) (p0 (Gen.padding this)))
    (addQ (rc2xy this toC) (p3 (Gen.padding this)))
    (addQ (rc2xy this toR) (p0 (Gen.padding this)))
    ((Gen.size this / 8) / 10)
    (arrow_color arrow).

(** [this.arrows.forEach(...)]: a TypeError when [arrows] is
    [undefined]. *)
Definition drawArrows (this : Gen.t) : Result (list DrawOp) :=
  match Gen.arrows this with
  | Some l => Ok (map (arrowOp this) l)
  | None => Throw TypeError
  end.

(** The canvas that [generateBuffer] encodes. *)
Definition render (E : Env) (this : Gen.t) : Result Canvas :=
  let w := Gen.size this + p1 (Gen.padding this) + p3 (Gen.padding this) in
  let h := Gen.size this + p0 (Gen.padding this) + p2 (Gen.padding this) in
  let background := FillRect 0 0 w h (Gen.light this) in
  do cells <- drawBoard E this;
  do arrows <- drawArrows this;
  Ok {| width := w; height := h; ops := background :: (cells ++ arrows)%list |}.

(** [generateBuffer()]: the object after the call and the outcome (the
    encoded buffer is the canvas). *)
Definition generateBuffer (E : Env) (this : Gen.t) : Gen.t * Result Canvas :=
  if negb (Gen.ready this) then (this, Throw notReady)
  else (this, render E this).

(** [generatePNG(pngPath)]: on success the buffer handed to the file
    writer, with the path. *)
Definition generatePNG (E : Env) (pngPath : string) (this : Gen.t)
  : Gen.t * Result (string * Canvas) :=
  if negb (Gen.ready this) then (this, Throw notReady)
  else
    let (this, r) := generateBuffer E this in
    (this, do buffer <- r; Ok (pngPath, buffer)).


(** The two coordinates [arrowOp] computes for one end of an arrow. *)
Definition arrowEnd (this : Gen.t) (square : string) : option Q * option Q :=
  (addQ (rc2xy this (arrowC (Gen.flipped this) square)) (p3 (Gen.padding this)),
   addQ (rc2xy this (arrowR (Gen.flipped this) square)) (p0 (Gen.padding this))).

(** The rectangle of a fill or of a sprite. *)
Definition opRect (op : DrawOp) : option (Q * Q * Q * Q) :=
  match op with
  | FillRect x y w h _ => Some (x, y, w, h)
  | DrawImage _ x y w h => Some (x, y, w, h)
  | DrawArrow _ _ _ _ _ _ => None
  end.

(** The calls of a loop body that returned (none when it threw). *)
Definition opsOf (r : Result (list DrawOp)) : list DrawOp :=
  match r with
  | Ok o => o
  | Throw _ => []
  end.

(** The calls one turn of the loop body issues. *)
Definition cellOps (E : Env) (this : Gen.t) (i j : Z) : list DrawOp :=
  opsOf (drawCell E this i j).

(** The exceptions of the sprite loader. *)
Definition isImageError (e : Exn) : Prop :=
  match e with
  | ImageError _ => True
  | _ => False
  end.

(** The centre of the rectangle the loop body uses for cell (i, j). *)
Definition cellCentre (this : Gen.t) (i j : Z) : Q * Q :=
  ((Gen.size this / 8) * n (7 - j + 1) - Gen.size this / 8
   + p3 (Gen.padding this) + (Gen.size this / 8) / 2,
   (Gen.size this / 8) * n i + p0 (Gen.padding this)
   + (Gen.size this / 8) / 2).

Local Close Scope Q_scope.

(** ** Sessions: sequences of method calls on one object *)

Inductive Call :=
| CallLoadPGN (pgn : string)
| CallLoadFEN (fen : string)
| CallAddArrows (arrows : list Arrow)
| CallLoadArray (array : list (list string))
| CallHighlightSquares (array : list string)
| CallGenerateBuffer
| CallGeneratePNG (pngPath : string).

Definition forget {A} (r : Result A) : Result unit :=
  do _x <- r; Ok tt.

Definition isOk {A} (r : Result A) : bool :=
  match r with
  | Ok _ => true
  | Throw _ => false
  end.

(** One call: the object afterwards, and whether it returned or threw. *)
Definition perform (E : Env) (c : Call) (this : Gen.t) : Gen.t * Result unit :=
  match c with
  | CallLoadPGN pgn => loadPGN E pgn this
  | CallLoadFEN fen => loadFEN E fen this
  | CallAddArrows arrows => (addArrows arrows this, Ok tt)
  | CallLoadArray array => (loadArray array this, Ok tt)
  | CallHighlightSquares array => (highlightSquares array this, Ok tt)
  | CallGenerateBuffer =>
      let (this, r) := generateBuffer E this in (this, forget r)
  | CallGeneratePNG pngPath =>
      let (this, r) := generatePNG E pngPath this in (this, forget r)
  end.

Definition isLoad (c : Call) : bool :=
  match c with
  | CallLoadPGN _ | CallLoadFEN _ | CallLoadArray _ => true
  | _ => false
  end.

Definition isAddArrows (c : Call) : bool :=
  match c with
  | CallAddArrows _ => true
  | _ => false
  end.

(** The object after a sequence of calls. *)
Fixpoint run (E : Env) (calls : list Call) (this : Gen.t) : Gen.t :=
  match calls with
  | [] => this
  | c :: rest => run E rest (fst (perform E c this))
  end.

(** Whether some load call of the sequence returned without throwing. *)
Fixpoint loadSucceeded (E : Env) (calls : list Call) (this : Gen.t) : bool :=
  match calls with
  | [] => false
  | c :: rest =>
      (isLoad c && isOk (snd (perform E c this)))
      || loadSucceeded E rest (fst (perform E c this))
  end.

(** ** Reading a grid, in the words of the specification *)

(** The six piece kinds and the six upper-case letters. *)
Definition pieceKinds : list string := ["p"; "b"; "n"; "r"; "q"; "k"].

Definition whiteLetters : list string := ["P"; "B"; "N"; "R"; "Q"; "K"].

(** A cell whose lower case is one of the six piece kinds. *)
Definition lowersToPiece (cell : string) : bool :=
  existsb (String.eqb (Js.toLowerCase cell)) pieceKinds.

(** Kind: the lower-cased cell; colour: white iff the cell is one of the
    upper-case letters. *)
Definition pieceOfCell (cell : string) : Piece :=
  {| type := Js.toLowerCase cell;
     color := if existsb (String.eqb cell) whiteLetters then "w" else "b" |}.

(** A cell that reads as the king of colour [c]. *)
Definition isKingOf (c : string) (cell : string) : bool :=
  lowersToPiece cell
  && String.eqb (type (pieceOfCell cell)) "k"
  && String.eqb (color (pieceOfCell cell)) c.

Definition countCells (P : string -> bool) (array : list (list string)) : nat :=
  list_sum (map (fun cells => length (filter (fun c => P c = true) cells)) array).

(** The number of non-empty cells of a grid. *)
Definition nonEmptyCells (array : list (list string)) : nat :=
  countCells (fun cell => negb (String.eqb cell "")) array.

(** The number of cells of a grid whose lower case is a piece kind. *)
Definition pieceCells (array : list (list string)) : nat :=
  countCells lowersToPiece array.

(** A grid with at most one white-king cell and at most one black-king
    cell. *)
Definition oneKingEach (array : list (list string)) : bool :=
  (countCells (isKingOf "w") array <=? 1)%nat
  && (countCells (isKingOf "b") array <=? 1)%nat.

(** A grid of at most 8 rows of at most 8 cells, each cell empty or one
    character. *)
Definition isBoardGrid (array : list (list string)) : bool :=
  (length array <=? 8)%nat &&
  forallb (fun cells =>
             (length cells <=? 8)%nat &&
             forallb (fun cell => (String.length cell <=? 1)%nat) cells)
          array.

(** The cells of a grid with their loop indices, in loop order. *)
Fixpoint indexRow (cells : list string) (i j : Z) : list (Z * Z * string) :=
  match cells with
  | [] => []
  | cell :: rest => (i, j, cell) :: indexRow rest i (j + 1)
  end.

Fixpoint indexRows (rows : list (list string)) (i : Z)
  : list (Z * Z * string) :=
  match rows with
  | [] => []
  | cells :: rest => (indexRow cells i 0 ++ indexRows rest (i + 1))%list
  end.

(** The body of the inner loop of [loadArray] on one indexed cell. *)
Definition loadCell (b : Chess.board) (x : Z * Z * string) : Chess.board :=
  let '(i, j, cell) := x in
  if isPieceCode cell
  then Chess.put (pieceOfCode cell) (squareOfCell i j) b
  else b.

(** The file letters and the rank digits. *)
Definition fileLetters : list ascii :=
  ["a"; "b"; "c"; "d"; "e"; "f"; "g"; "h"]%char.

Definition rankDigit (r : Z) : ascii := ascii_of_N (Z.to_N (48 + r)).

(** The name of the square on file index [f] (0 = a) and rank [r]. *)
Definition squareName (f r : Z) : option string :=
  match fileLetters !! Z.to_nat f with
  | Some letter => Some (String letter (String (rankDigit r) ""))
  | None => None
  end.

(** ** Sample inputs *)

Definition noPadding : Padding := {| p0 := 0; p1 := 0; p2 := 0; p3 := 0 |}.

(** An environment whose parsers accept only the empty-board FEN and
    whose sprites all load. *)
Definition sampleEnv : Env :=
  {| defaultSize := 480;
     defaultPadding := noPadding;
     defaultLight := "rgb(240, 217, 181)";
     defaultDark := "rgb(181, 136, 99)";
     defaultHighlight := "rgba(235, 97, 80, 0.8)";
     defaultStyle := "merida";
     filePaths := fun key => Some key;
     newChess := Chess.clear;
     load := fun fen b =>
       if String.eqb fen "8/8/8/8/8/8/8/8 w - - 0 1" then (true, Chess.clear)
       else (false, b);
     load_pgn := fun _ b => (false, b);
     loadImage := fun _ => true |}.

Definition emptyRank : list string := [""; ""; ""; ""; ""; ""; ""; ""].

(** A white king on a8 and nothing else. *)
Definition kingGrid : list (list string) :=
  ["K"; ""; ""; ""; ""; ""; ""; ""] :: replicate 7 emptyRank.

(** A grid whose a8 cell holds a character that is no piece letter. *)
Definition strayGrid : list (list string) :=
  ["x"; ""; ""; ""; ""; ""; ""; ""] :: replicate 7 emptyRank.

(** size = 400, padding = [0, 0, 0, 0], flipped = false. *)
Definition sampleOptions : Options :=
  {| opt_size := Some (400 : Q); opt_padding := Some noPadding;
     opt_light := None; opt_dark := None; opt_highlight := None;
     opt_style := None; opt_flipped := Some false |}.

Definition sampleGenerator : Gen.t :=
  loadArray kingGrid (ChessImageGenerator sampleEnv sampleOptions).


Definition sampleArrows : list Arrow :=
  [{| from := "a1"; to := "a4"; arrow_color := "red" |}].


(** ** Further notions: sessions, sprites and placement *)

(** The configuration fields of [this]. *)
Definition configuration (g : Gen.t)
  : Q * Padding * string * string * string * string * bool :=
  (Gen.size g, Gen.padding g, Gen.light g, Gen.dark g, Gen.highlight g,
   Gen.style g, Gen.flipped g).

Definition isHighlightSquares (c : Call) : bool :=
  match c with
  | CallHighlightSquares _ => true
  | _ => false
  end.

(** The guard of the sprite branch of [generateBuffer] on a piece. *)
Definition drawable (piece : Piece) : bool :=
  negb (String.eqb (type piece) "") &&
  Js.includes Config.black (Js.toLowerCase (type piece)).

(** Whether every cell of a grid is empty or one character. *)
Definition singleChars (array : list (list string)) : bool :=
  forallb (forallb (fun cell => (String.length cell <=? 1)%nat)) array.

(** The inputs of the repository's usage script. *)
Definition scriptOptions : Options :=
  {| opt_size := Some (1316 : Q);
     opt_padding := Some {| p0 := 288; p1 := 44; p2 := 268; p3 := 44 |};
     opt_light := Some "#ccc"; opt_dark := Some "#aaa";
     opt_highlight := Some "#ff0000"; opt_style := None;
     opt_flipped := None |}.

Definition scriptSquares : list string := ["a1"; "b4"].

Definition scriptFen : string :=
  "r1bqkbnr/pppp1ppp/2n5/4p3/3PP3/5N2/PPP2PPP/RNBQKB1R w KQkq - 0 1".

(** The piece placement that FEN describes, rank 8 first. *)
Definition scriptGrid : list (list string) :=
  [["r"; ""; "b"; "q"; "k"; "b"; "n"; "r"];
   ["p"; "p"; "p"; "p"; ""; "p"; "p"; "p"];
   [""; ""; "n"; ""; ""; ""; ""; ""];
   [""; ""; ""; ""; "p"; ""; ""; ""];
   [""; ""; ""; "P"; "P"; ""; ""; ""];
   [""; ""; ""; ""; ""; "N"; ""; ""];
   ["P"; "P"; "P"; ""; ""; "P"; "P"; "P"];
   ["R"; "N"; "B"; "Q"; "K"; "B"; ""; "R"]].

(** The engine state with those 32 pieces put on a cleared board. *)
Definition scriptPosition : Chess.board :=
  loadArrayRows scriptGrid 0 Chess.clear.

Definition spriteKeys : list string :=
  ["wp"; "wn"; "wb"; "wr"; "wq"; "wk"; "bp"; "bn"; "bb"; "br"; "bq"; "bk"].

(** An environment for the usage script: the parser accepts the script's
    FEN and leaves its position, and the sprite loader finds the twelve
    files of the default style and no other. *)
Definition scriptEnv : Env :=
  {| defaultSize := 480;
     defaultPadding := noPadding;
     defaultLight := "rgb(240, 217, 181)";
     defaultDark := "rgb(181, 136, 99)";
     defaultHighlight := "rgba(235, 97, 80, 0.8)";
     defaultStyle := "merida";
     filePaths := fun key =>
       if existsb (String.eqb key) spriteKeys then Some key else None;
     newChess := Chess.clear;
     load := fun fen b =>
       if String.eqb fen scriptFen then (true, scriptPosition)
       else (false, b);
     load_pgn := fun _ b => (false, b);
     loadImage := fun file =>
       existsb (String.eqb file)
         (map (fun key => "resources/merida/" ++ key ++ ".png") spriteKeys) |}.

Definition scriptArrows : list Arrow :=
  [{| from := "a1"; to := "a4"; arrow_color := "red" |};
   {| from := "c3"; to := "f5"; arrow_color := "green" |};
   {| from := "h6"; to := "e6"; arrow_color := "darkgray" |}].

(** A grid of nine rows of nine black pawns. *)
Definition wideGrid : list (list string) := replicate 9 (replicate 9 "p").

(** Two white kings side by side on a8 and b8. *)
Definition twoKingsGrid : list (list string) :=
  ["K"; "K"; ""; ""; ""; ""; ""; ""] :: replicate 7 emptyRank.

(** Nine rows: eight empty ranks and a pawn in the ninth row. *)
Definition tallGrid : list (list string) :=
  (replicate 8 emptyRank ++ [["p"; ""; ""; ""; ""; ""; ""; ""]])%list.

(** One row of nine cells, a pawn in the ninth. *)
Definition longRankGrid : list (list string) :=
  [[""; ""; ""; ""; ""; ""; ""; ""; "p"]].

(** The sample object with arrows and with a1 highlighted, and what
    [generateBuffer] returns on it. *)
Definition pictureGenerator : Gen.t :=
  highlightSquares ["a1"] (addArrows sampleArrows sampleGenerator).

Definition pictureCanvas : Canvas :=
  match snd (generateBuffer sampleEnv pictureGenerator) with
  | Ok canvas => canvas
  | Throw _ => {| width := 0; height := 0; ops := [] |}
  end.

(** A board all of whose entries sit on squares and come from cells that
    satisfy [P] and pass the guard of [loadArray]. *)
Definition loadedFrom (P : string -> Prop) (b : Chess.board) : Prop :=
  forall s p,
    b !! s = Some p ->
    Chess.isSquare s = true
    /\ exists cell, P cell /\ isPieceCode cell = true /\ p = pieceOfCode cell.

(** ** Auxiliary notions of the proofs *)

(** A cell position inside the 8 x 8 board. *)
Definition onBoard (p : Z * Z) : Prop := 0 <= p.1 <= 7 /\ 0 <= p.2 <= 7.

(** An indexed cell of a board grid, and one that holds a piece letter. *)
Definition cellOk (x : Z * Z * string) : Prop :=
  onBoard x.1 /\ (String.length x.2 <= 1)%nat.

Definition cellHas (P : string -> bool) (x : Z * Z * string) : Prop :=
  P x.2 = true.

#[global] Instance cellHas_dec P x : Decision (cellHas P x).
Proof. unfold cellHas. apply _. Defined.

(** Reading [b !! s] on an engine state as a lookup in its board. *)
Ltac board_lookup :=
  repeat match goal with
         | |- context [@lookup string Piece Chess.board _ ?s ?b] =>
             change (@lookup string Piece Chess.board _ s b)
               with (Chess.squares b !! s)
         | H : context [@lookup string Piece Chess.board _ ?s ?b] |- _ =>
             change (@lookup string Piece Chess.board _ s b)
               with (Chess.squares b !! s) in H
         end.

(** Case analysis on an index known to lie in 0..7. *)
Ltac index_cases i :=
  let H := fresh in
  assert (H : (i = 0 \/ i = 1 \/ i = 2 \/ i = 3 \/ i = 4 \/ i = 5 \/ i = 6
               \/ i = 7)%Z) by lia;
  repeat (destruct H as [H|H]; [subst i|]); [..|subst i].

(** * Properties *)

Local Open Scope Q_scope.

(** ** Exceptions of the renderer *)

Lemma pieceDraw_throws E this i j e :
  pieceDraw E this i j = Throw e -> isImageError e.
Proof.
  unfold pieceDraw.
  destruct (Chess.get _ _) as [piece|]; [|discriminate].
  destruct (_ && _); [|discriminate].
  destruct (loadImage E _); [discriminate|].
  intros [= <-]. exact I.
Qed.

Lemma drawCell_throws E this i j e :
  drawCell E this i j = Throw e -> isImageError e.
Proof.
  unfold drawCell. destruct (pieceDraw E this i j) eqn:Hp; simpl.
  - discriminate.
  - intros [= <-]. eauto using pieceDraw_throws.
Qed.

Lemma forEach_throws {A} (body : A -> Result (list DrawOp)) l e :
  forEach body l = Throw e -> exists x, In x l /\ body x = Throw e.
Proof.
  induction l as [|x l IH]; simpl; [discriminate|].
  destruct (body x) eqn:Hx; simpl.
  - destruct (forEach body l) eqn:Hl; simpl; [discriminate|].
    intros [= <-]. destruct (IH eq_refl) as (y & Hy & Hby). eauto.
  - intros [= <-]. eauto.
Qed.

Lemma drawBoard_throws E this e :
  drawBoard E this = Throw e -> isImageError e.
Proof.
  unfold drawBoard. intros H.
  apply forEach_throws in H as (i & _ & H).
  apply forEach_throws in H as (j & _ & H).
  eauto using drawCell_throws.
Qed.

Lemma render_throws E this e :
  render E this = Throw e -> isImageError e \/ e = TypeError.
Proof.
  unfold render. destruct (drawBoard E this) eqn:Hb; simpl.
  - unfold drawArrows. destruct (Gen.arrows this); simpl; [discriminate|].
    intros [= <-]. now right.
  - intros [= <-]. left. eauto using drawBoard_throws.
Qed.

Lemma render_not_notReady E this : render E this <> Throw notReady.
Proof.
  intros H. apply render_throws in H as [H|H]; [exact H|discriminate].
Qed.

(** ** Readiness along a session *)

Lemma loadPGN_ready E pgn this :
  Gen.ready (fst (loadPGN E pgn this))
  = Gen.ready this || isOk (snd (loadPGN E pgn this)).
Proof.
  unfold loadPGN. destruct (load_pgn E pgn (Gen.chess this)) as [[] b]; simpl.
  - now rewrite orb_true_r.
  - now rewrite orb_false_r.
Qed.

Lemma loadFEN_ready E fen this :
  Gen.ready (fst (loadFEN E fen this))
  = Gen.ready this || isOk (snd (loadFEN E fen this)).
Proof.
  unfold loadFEN. destruct (load E fen (Gen.chess this)) as [[] b]; simpl.
  - now rewrite orb_true_r.
  - now rewrite orb_false_r.
Qed.

Lemma generateBuffer_fst E this : fst (generateBuffer E this) = this.
Proof. unfold generateBuffer. now destruct (Gen.ready this). Qed.

Lemma generatePNG_fst E pngPath this :
  fst (generatePNG E pngPath this) = this.
Proof.
  unfold generatePNG, generateBuffer. now destruct (Gen.ready this).
Qed.

Lemma perform_ready E c this :
  Gen.ready (fst (perform E c this))
  = Gen.ready this || (isLoad c && isOk (snd (perform E c this))).
Proof.
  destruct c; simpl.
  - apply loadPGN_ready.
  - apply loadFEN_ready.
  - now rewrite orb_false_r.
  - now rewrite orb_true_r.
  - now rewrite orb_false_r.
  - pose proof (generateBuffer_fst E this) as H.
    destruct (generateBuffer E this); simpl in *; subst.
    now rewrite orb_false_r.
  - pose proof (generatePNG_fst E pngPath this) as H.
    destruct (generatePNG E pngPath this); simpl in *; subst.
    now rewrite orb_false_r.
Qed.

Lemma run_ready E calls : forall this,
  Gen.ready (run E calls this)
  = Gen.ready this || loadSucceeded E calls this.
Proof.
  induction calls as [|c calls IH]; intros this; simpl.
  - now rewrite orb_false_r.
  - rewrite IH, perform_ready. now rewrite orb_assoc.
Qed.

Lemma perform_arrows E c this :
  isAddArrows c = false ->
  Gen.arrows (fst (perform E c this)) = Gen.arrows this.
Proof.
  destruct c; simpl; try discriminate; intros _; try reflexivity.
  - unfold loadPGN. destruct (load_pgn E pgn (Gen.chess this)) as [[] b];
      reflexivity.
  - unfold loadFEN. destruct (load E fen (Gen.chess this)) as [[] b];
      reflexivity.
  - pose proof (generateBuffer_fst E this) as H.
    destruct (generateBuffer E this); simpl in *; now subst.
  - pose proof (generatePNG_fst E pngPath this) as H.
    destruct (generatePNG E pngPath this); simpl in *; now subst.
Qed.

Lemma run_arrows E calls : forall this,
  existsb isAddArrows calls = false ->
  Gen.arrows (run E calls this) = Gen.arrows this.
Proof.
  induction calls as [|c calls IH]; intros this; simpl; [reflexivity|].
  intros H. apply orb_false_iff in H as [Hc Hrest].
  rewrite IH by exact Hrest. now apply perform_arrows.
Qed.

(** C1 (as the code behaves).  On an object on which a load call has
    succeeded and [addArrows] was never called, [generateBuffer] does not
    return a buffer: it throws, either the rejection of a sprite that does
    not load or, once the board is drawn, the TypeError of calling
    [forEach] on the undefined [arrows]. *)
Theorem generateBuffer_without_addArrows E options calls :
  loadSucceeded E calls (ChessImageGenerator E options) = true ->
  existsb isAddArrows calls = false ->
  snd (generateBuffer E (run E calls (ChessImageGenerator E options)))
    = Throw TypeError
  \/ exists file,
      snd (generateBuffer E (run E calls (ChessImageGenerator E options)))
        = Throw (ImageError file).
Proof.
  intros Hload Harrows.
  set (this := run E calls (ChessImageGenerator E options)).
  assert (Hready : Gen.ready this = true).
  { unfold this. rewrite run_ready, Hload. apply orb_true_r. }
  assert (Hnone : Gen.arrows this = None).
  { unfold this. now rewrite run_arrows. }
  unfold generateBuffer. rewrite Hready. simpl.
  unfold render. destruct (drawBoard E this) as [cells|e] eqn:Hb; simpl.
  - left. unfold drawArrows. now rewrite Hnone.
  - right. apply drawBoard_throws in Hb. destruct e; try contradiction.
    now exists file.
Qed.

Lemma generateBuffer_without_addArrows_sample :
  loadSucceeded sampleEnv [CallLoadArray kingGrid]
    (ChessImageGenerator sampleEnv sampleOptions) = true
  /\ existsb isAddArrows [CallLoadArray kingGrid] = false
  /\ (snd (generateBuffer sampleEnv sampleGenerator) = Throw TypeError
      \/ exists file,
          snd (generateBuffer sampleEnv sampleGenerator)
            = Throw (ImageError file)).
Proof.
  split; [reflexivity|]. split; [reflexivity|].
  apply (generateBuffer_without_addArrows sampleEnv sampleOptions
           [CallLoadArray kingGrid]); reflexivity.
Defined.

(** C2.  Along any sequence of calls on a freshly constructed object:
    while no load call has succeeded, [generateBuffer] and [generatePNG]
    throw "Load a position first"; once a load call (PGN, FEN or grid) has
    succeeded, [ready] holds and neither entry point throws that error. *)
Theorem ready_iff_load_succeeded E options calls pngPath :
  let this := run E calls (ChessImageGenerator E options) in
  (loadSucceeded E calls (ChessImageGenerator E options) = false ->
     snd (generateBuffer E this) = Throw (Error "Load a position first")
     /\ snd (generatePNG E pngPath this)
        = Throw (Error "Load a position first"))
  /\ (loadSucceeded E calls (ChessImageGenerator E options) = true ->
        Gen.ready this = true
        /\ snd (generateBuffer E this) <> Throw notReady
        /\ snd (generatePNG E pngPath this) <> Throw notReady).
Proof.
  intros this.
  assert (Hready : Gen.ready this
                   = loadSucceeded E calls (ChessImageGenerator E options)).
  { unfold this. now rewrite run_ready. }
  split; intros Hload; rewrite Hload in Hready.
  - unfold generatePNG, generateBuffer. rewrite Hready. now split.
  - split; [exact Hready|].
    unfold generatePNG, generateBuffer. rewrite Hready. simpl.
    split; [apply render_not_notReady|].
    destruct (render E this) as [canvas|e] eqn:Hr; simpl; [discriminate|].
    intros [= ->]. now apply (render_not_notReady E this).
Qed.

Lemma ready_iff_load_succeeded_sample :
  (snd (generateBuffer sampleEnv (ChessImageGenerator sampleEnv sampleOptions))
     = Throw (Error "Load a position first"))
  /\ Gen.ready sampleGenerator = true.
Proof.
  split.
  - apply (ready_iff_load_succeeded sampleEnv sampleOptions [] "out.png").
    reflexivity.
  - apply (ready_iff_load_succeeded sampleEnv sampleOptions
             [CallLoadArray kingGrid] "out.png").
    reflexivity.
Defined.

(** C7.  When the rules engine rejects the notation, [loadFEN] throws
    "FEN could not be read successfully" and [loadPGN] throws "PGN could
    not be read successfully", and [ready] keeps its prior value; in
    general [ready] after the call is its prior value or the engine's
    acceptance. *)
Theorem rejected_notation_keeps_ready E this s :
  (fst (load E s (Gen.chess this)) = false ->
     snd (loadFEN E s this)
       = Throw (Error "FEN could not be read successfully")
     /\ Gen.ready (fst (loadFEN E s this)) = Gen.ready this)
  /\ (fst (load_pgn E s (Gen.chess this)) = false ->
        snd (loadPGN E s this)
          = Throw (Error "PGN could not be read successfully")
        /\ Gen.ready (fst (loadPGN E s this)) = Gen.ready this)
  /\ Gen.ready (fst (loadFEN E s this))
     = Gen.ready this || fst (load E s (Gen.chess this))
  /\ Gen.ready (fst (loadPGN E s this))
     = Gen.ready this || fst (load_pgn E s (Gen.chess this)).
Proof.
  unfold loadFEN, loadPGN.
  destruct (load E s (Gen.chess this)) as [[] b];
    destruct (load_pgn E s (Gen.chess this)) as [[] b']; simpl;
    rewrite ?orb_true_r, ?orb_false_r; repeat split; discriminate.
Qed.

Lemma rejected_notation_keeps_ready_sample :
  fst (load sampleEnv "not a position" (Gen.chess sampleGenerator)) = false
  /\ snd (loadFEN sampleEnv "not a position" sampleGenerator)
     = Throw (Error "FEN could not be read successfully")
  /\ Gen.ready (fst (loadFEN sampleEnv "not a position" sampleGenerator))
     = Gen.ready sampleGenerator.
Proof.
  split; [reflexivity|].
  apply (rejected_notation_keeps_ready sampleEnv sampleGenerator
           "not a position").
  reflexivity.
Defined.

(** C9.  [generateBuffer] leaves the object as it found it, whether it
    returns a buffer or throws: the position, the highlighted squares, the
    arrows, [ready] and every configuration field are those before the
    call. *)
Theorem generateBuffer_frame E this :
  fst (generateBuffer E this) = this.
Proof. apply generateBuffer_fst. Qed.

(** C10.  A falsy option value (size 0, an empty-string colour or style,
    flipped false) constructs the same object as the omitted option, and
    the field holds the built-in default. *)
Theorem falsy_option_is_default E o :
  (ChessImageGenerator E (withSize (Some 0) o)
     = ChessImageGenerator E (withSize None o)
   /\ Gen.size (ChessImageGenerator E (withSize (Some 0) o)) = defaultSize E)
  /\ (ChessImageGenerator E (withLight (Some "") o)
        = ChessImageGenerator E (withLight None o)
      /\ Gen.light (ChessImageGenerator E (withLight (Some "") o))
         = defaultLight E)
  /\ (ChessImageGenerator E (withDark (Some "") o)
        = ChessImageGenerator E (withDark None o)
      /\ Gen.dark (ChessImageGenerator E (withDark (Some "") o))
         = defaultDark E)
  /\ (ChessImageGenerator E (withHighlight (Some "") o)
        = ChessImageGenerator E (withHighlight None o)
      /\ Gen.highlight (ChessImageGenerator E (withHighlight (Some "") o))
         = defaultHighlight E)
  /\ (ChessImageGenerator E (withStyle (Some "") o)
        = ChessImageGenerator E (withStyle None o)
      /\ Gen.style (ChessImageGenerator E (withStyle (Some "") o))
         = defaultStyle E)
  /\ (ChessImageGenerator E (withFlipped (Some false) o)
        = ChessImageGenerator E (withFlipped None o)
      /\ Gen.flipped (ChessImageGenerator E (withFlipped (Some false) o))
         = false).
Proof. repeat split. Qed.

(** ** The coordinate mapping *)

(** C4.  For a rendering row i and column j in 0..7: unflipped, row i is
    rank 8 - i and column j is board column 7 - j; flipped, row i is rank
    i + 1 and column j is board column j; and the square of the cell is
    named by the file letter at that board column in a..h followed by the
    rank. *)
Theorem row_col_mapping i j :
  (0 <= i <= 7)%Z -> (0 <= j <= 7)%Z ->
  row false i = (8 - i)%Z /\ col false j = (7 - j)%Z
  /\ row true i = (i + 1)%Z /\ col true j = j
  /\ forall flipped,
       coords flipped i j = squareName (col flipped j) (row flipped i)
       /\ exists letter,
            fileLetters !! Z.to_nat (col flipped j) = Some letter
            /\ coords flipped i j
               = Some (String letter (String (rankDigit (row flipped i)) "")).
Proof.
  intros Hi Hj. unfold row, col.
  repeat (split; [lia|]).
  intros flipped.
  index_cases i; index_cases j; destruct flipped;
    (split; [reflexivity|]); eexists; split; reflexivity.
Qed.

Lemma row_col_mapping_sample :
  coords false 0 0 = Some "h8" /\ coords true 0 0 = Some "a1"
  /\ row false 0 = 8%Z /\ col false 0 = 7%Z.
Proof.
  pose proof (row_col_mapping 0 0 ltac:(lia) ltac:(lia)) as (Hr & Hc & _ & _ & H).
  split; [exact (proj1 (H false))|].
  split; [exact (proj1 (H true))|].
  split; [exact Hr|exact Hc].
Defined.

(** ** Parity of a cell *)

Lemma rem2_even (s : Z) : (0 <= s)%Z -> (Z.rem s 2 =? 0)%Z = Z.even s.
Proof.
  intros Hs. rewrite Z.rem_mod_nonneg by lia.
  rewrite Zmod_even. now destruct (Z.even s).
Qed.

(** ** The canvas *)

Lemma forEach_ok {A} (body : A -> Result (list DrawOp)) l r :
  forEach body l = Ok r ->
  Forall (fun x => body x = Ok (opsOf (body x))) l
  /\ r = flat_map (fun x => opsOf (body x)) l.
Proof.
  revert r. induction l as [|x l IH]; simpl; intros r.
  - intros [= <-]. now split.
  - destruct (body x) as [o|e] eqn:Hx; simpl; [|discriminate].
    destruct (forEach body l) as [o'|e]; simpl; [|discriminate].
    intros [= <-]. destruct (IH o' eq_refl) as [Hall ->].
    split; [|reflexivity].
    constructor; [now rewrite Hx|exact Hall].
Qed.

Lemma flat_map_Forall_ext {A B} (f g : A -> list B) l :
  Forall (fun x => f x = g x) l -> flat_map f l = flat_map g l.
Proof.
  induction 1 as [|x l Hx _ IH]; simpl; [reflexivity|].
  now rewrite Hx, IH.
Qed.

Lemma drawBoard_ok E this cells :
  drawBoard E this = Ok cells ->
  cells = flat_map (fun i => flat_map (fun j => cellOps E this i j) (seqZ 0 8))
                   (seqZ 0 8).
Proof.
  unfold drawBoard. intros H. apply forEach_ok in H as [Hall ->].
  apply flat_map_Forall_ext.
  eapply Forall_impl; [exact Hall|]. intros i Hrow. cbv beta in Hrow.
  apply forEach_ok in Hrow as [_ Hrow]. rewrite Hrow at 1. reflexivity.
Qed.

(** ** Arrow ends and cells *)

Lemma isSquare_squareName s :
  Chess.isSquare s = true ->
  exists f r, (0 <= f <= 7)%Z /\ (1 <= r <= 8)%Z /\ squareName f r = Some s.
Proof.
  destruct s as [|a [|b [|c s]]]; simpl; try discriminate.
  intros H. repeat (apply andb_true_iff in H as [H ?]).
  apply N.leb_le in H, H0, H1, H2.
  pose proof (ascii_N_embedding a) as Ea.
  pose proof (ascii_N_embedding b) as Eb.
  set (na := N_of_ascii a) in *. set (nb := N_of_ascii b) in *.
  clearbody na nb. subst a b.
  exists (Z.of_N na - 97)%Z, (Z.of_N nb - 48)%Z.
  split; [lia|]. split; [lia|].
  assert (Ha : (na = 97 \/ na = 98 \/ na = 99 \/ na = 100 \/ na = 101
                \/ na = 102 \/ na = 103 \/ na = 104)%N) by lia.
  assert (Hb : (nb = 49 \/ nb = 50 \/ nb = 51 \/ nb = 52 \/ nb = 53
                \/ nb = 54 \/ nb = 55 \/ nb = 56)%N) by lia.
  repeat (destruct Ha as [Ha|Ha]; [subst na|]); [..|subst na];
    repeat (destruct Hb as [Hb|Hb]; [subst nb|]); try subst nb; reflexivity.
Qed.

Lemma squareName_arrow flipped f r s :
  (0 <= f <= 7)%Z -> (1 <= r <= 8)%Z -> squareName f r = Some s ->
  arrowC flipped s = Some (8 - col flipped f)%Z
  /\ arrowR flipped s = Some (row flipped (r - 1))
  /\ coords flipped (row flipped (r - 1) - 1) (col flipped f) = Some s.
Proof.
  intros Hf Hr Hs.
  assert (Hr' : (r = 1 \/ r = 2 \/ r = 3 \/ r = 4 \/ r = 5 \/ r = 6 \/ r = 7
                 \/ r = 8)%Z) by lia.
  index_cases f;
    repeat (destruct Hr' as [Hr'|Hr']; [subst r|]); try subst r;
    injection Hs as <-; destruct flipped; repeat split.
Qed.

Lemma Qmult_cancel_shift (q a b c : Q) :
  ~ q == 0 -> q * a + c == q * b + c -> a == b.
Proof.
  intros Hq H.
  assert (Ha : a == (q * a + c - c) / q) by (field; exact Hq).
  assert (Hb : b == (q * b + c - c) / q) by (field; exact Hq).
  rewrite Ha, Hb, H. reflexivity.
Qed.

Lemma cellCentre_inj this i j i' j' :
  ~ Gen.size this == 0 ->
  fst (cellCentre this i' j') == fst (cellCentre this i j) ->
  snd (cellCentre this i' j') == snd (cellCentre this i j) ->
  i' = i /\ j' = j.
Proof.
  intros Hsize Hx Hy. unfold cellCentre, n in *. simpl in *.
  assert (Hq : ~ Gen.size this / 8 == 0).
  { intros H. apply Hsize.
    assert (E : Gen.size this == Gen.size this / 8 * 8) by field.
    rewrite E, H. reflexivity. }
  set (q := Gen.size this / 8) in *. set (h := q / 2) in *.
  clearbody h. clearbody q.
  split.
  - apply inject_Z_injective.
    apply (Qmult_cancel_shift q _ _ (p0 (Gen.padding this) + h) Hq).
    rewrite !Qplus_assoc. exact Hy.
  - assert (H : inject_Z (7 - j' + 1) == inject_Z (7 - j + 1)).
    { apply (Qmult_cancel_shift q _ _ (- q + p3 (Gen.padding this) + h) Hq).
      rewrite !Qplus_assoc. exact Hx. }
    apply (proj1 (inject_Z_injective _ _)) in H. lia.
Qed.

Lemma arrowEnd_centre this f r s :
  squareName f r = Some s ->
  arrowC (Gen.flipped this) s = Some (8 - col (Gen.flipped this) f)%Z ->
  arrowR (Gen.flipped this) s = Some (row (Gen.flipped this) (r - 1)) ->
  exists x y,
    arrowEnd this s = (Some x, Some y)
    /\ x == fst (cellCentre this (row (Gen.flipped this) (r - 1) - 1)
                            (col (Gen.flipped this) f))
    /\ y == snd (cellCentre this (row (Gen.flipped this) (r - 1) - 1)
                            (col (Gen.flipped this) f)).
Proof.
  intros _ HC HR. unfold arrowEnd. rewrite HC, HR. simpl.
  eexists _, _. split; [reflexivity|].
  unfold n.
  replace (7 - col (Gen.flipped this) f + 1)%Z
    with (8 - col (Gen.flipped this) f)%Z by lia.
  split; [field|].
  replace (row (Gen.flipped this) (r - 1))
    with (row (Gen.flipped this) (r - 1) - 1 + 1)%Z at 1 by lia.
  rewrite inject_Z_plus. field.
Qed.

(** C5.  For a valid square s and either flip state: the arrow-end
    computation resolves s to a row R and a column C, its pixel point is
    the centre of the rectangle of the cell (i, j) = (R - 1, 8 - C) of the
    drawing loop, and the loop names that cell s; when the size is not 0
    no other cell has that centre. *)
Theorem arrow_end_round_trip this s :
  Chess.isSquare s = true ->
  exists i j x y,
    (0 <= i <= 7)%Z /\ (0 <= j <= 7)%Z
    /\ arrowR (Gen.flipped this) s = Some (i + 1)%Z
    /\ arrowC (Gen.flipped this) s = Some (8 - j)%Z
    /\ arrowEnd this s = (Some x, Some y)
    /\ x == fst (cellCentre this i j) /\ y == snd (cellCentre this i j)
    /\ coords (Gen.flipped this) i j = Some s
    /\ (~ Gen.size this == 0 ->
        forall i' j',
          fst (cellCentre this i' j') == x ->
          snd (cellCentre this i' j') == y ->
          i' = i /\ j' = j).
Proof.
  intros Hs.
  destruct (isSquare_squareName s Hs) as (f & r & Hf & Hr & Hname).
  destruct (squareName_arrow (Gen.flipped this) f r s Hf Hr Hname)
    as (HC & HR & Hcoords).
  destruct (arrowEnd_centre this f r s Hname HC HR) as (x & y & Hend & Hx & Hy).
  exists (row (Gen.flipped this) (r - 1) - 1)%Z, (col (Gen.flipped this) f), x, y.
  split; [unfold row; destruct (Gen.flipped this); lia|].
  split; [unfold col; destruct (Gen.flipped this); lia|].
  split; [rewrite HR; f_equal; lia|].
  split; [exact HC|].
  split; [exact Hend|]. split; [exact Hx|]. split; [exact Hy|].
  split; [exact Hcoords|].
  intros Hsize i' j' Hx' Hy'. apply (cellCentre_inj this); [exact Hsize| |].
  - now rewrite Hx'.
  - now rewrite Hy'.
Qed.

Lemma arrow_end_round_trip_sample :
  Chess.isSquare "a1" = true
  /\ exists i j x y,
       (0 <= i <= 7)%Z /\ (0 <= j <= 7)%Z
       /\ arrowR false "a1" = Some (i + 1)%Z
       /\ arrowC false "a1" = Some (8 - j)%Z
       /\ arrowEnd sampleGenerator "a1" = (Some x, Some y)
       /\ x == fst (cellCentre sampleGenerator i j)
       /\ y == snd (cellCentre sampleGenerator i j)
       /\ coords false i j = Some "a1"
       /\ (~ Gen.size sampleGenerator == 0 ->
           forall i' j',
             fst (cellCentre sampleGenerator i' j') == x ->
             snd (cellCentre sampleGenerator i' j') == y ->
             i' = i /\ j' = j).
Proof.
  split; [reflexivity|].
  exact (arrow_end_round_trip sampleGenerator "a1" eq_refl).
Defined.

Local Close Scope Q_scope.

(** ** Loading a grid *)

Lemma loadArrayRow_fold cells : forall i j b,
  loadArrayRow cells i j b = foldl loadCell b (indexRow cells i j).
Proof.
  induction cells as [|cell cells IH]; intros i j b; simpl; [reflexivity|].
  now rewrite IH.
Qed.

Lemma loadArrayRows_fold rows : forall i b,
  loadArrayRows rows i b = foldl loadCell b (indexRows rows i).
Proof.
  induction rows as [|cells rows IH]; intros i b; simpl; [reflexivity|].
  now rewrite foldl_app, IH, loadArrayRow_fold.
Qed.

Lemma elem_of_indexRow cells : forall i j x,
  x ∈ indexRow cells i j <->
  exists k : nat, cells !! k = Some x.2 /\ x.1 = (i, j + Z.of_nat k).
Proof.
  induction cells as [|cell cells IH]; intros i j x; simpl.
  - split; [intros H; inversion H|intros (k & H & _); discriminate H].
  - rewrite elem_of_cons, IH. split.
    + intros [->|(k & Hk & Hx)].
      * exists 0%nat. simpl. split; [reflexivity|f_equal; lia].
      * exists (S k). simpl. split; [exact Hk|rewrite Hx; f_equal; lia].
    + intros ([|k] & Hk & Hx); simpl in Hk.
      * left. destruct x as [p c]; simpl in *. injection Hk as <-.
        rewrite Hx. do 2 f_equal. lia.
      * right. exists k. split; [exact Hk|rewrite Hx; f_equal; lia].
Qed.

Lemma elem_of_indexRows rows : forall i x,
  x ∈ indexRows rows i <->
  exists (k l : nat) cells,
    rows !! k = Some cells /\ cells !! l = Some x.2
    /\ x.1 = (i + Z.of_nat k, Z.of_nat l).
Proof.
  induction rows as [|cells rows IH]; intros i x; simpl.
  - split; [intros H; inversion H|intros (k & l & c & H & _); discriminate H].
  - rewrite elem_of_app, elem_of_indexRow, IH. split.
    + intros [(l & Hl & Hx)|(k & l & c & Hk & Hl & Hx)].
      * exists 0%nat, l, cells. simpl.
        split; [reflexivity|]. split; [exact Hl|rewrite Hx; f_equal; lia].
      * exists (S k), l, c. simpl.
        split; [exact Hk|]. split; [exact Hl|rewrite Hx; f_equal; lia].
    + intros ([|k] & l & c & Hk & Hl & Hx); simpl in Hk.
      * left. injection Hk as <-. exists l.
        split; [exact Hl|rewrite Hx; f_equal; lia].
      * right. exists k, l, c.
        split; [exact Hk|]. split; [exact Hl|rewrite Hx; f_equal; lia].
Qed.

Lemma NoDup_indexRow cells : forall i j, NoDup (indexRow cells i j).*1.
Proof.
  induction cells as [|cell cells IH]; intros i j; simpl; constructor.
  - rewrite list_elem_of_fmap. intros (x & Hx & Hin).
    apply elem_of_indexRow in Hin as (k & _ & Hk).
    rewrite Hk in Hx. injection Hx as Hx. lia.
  - apply IH.
Qed.

Lemma NoDup_indexRows rows : forall i, NoDup (indexRows rows i).*1.
Proof.
  induction rows as [|cells rows IH]; intros i; simpl; [constructor|].
  rewrite fmap_app. apply NoDup_app. split; [apply NoDup_indexRow|].
  split; [|apply IH].
  intros p Hp Hp'.
  apply list_elem_of_fmap in Hp as (x & -> & Hx).
  apply list_elem_of_fmap in Hp' as (y & Hxy & Hy).
  apply elem_of_indexRow in Hx as (k & _ & Hk).
  apply elem_of_indexRows in Hy as (k' & l & c & _ & _ & Hk').
  rewrite Hk, Hk' in Hxy. injection Hxy as Hi Hj. lia.
Qed.

Lemma squareOfCell_name i j :
  0 <= i <= 7 -> 0 <= j <= 7 ->
  squareOfCell i j = squareName j (8 - i)
  /\ squareOfCell i j
     = Some (String (ascii_of_N (Z.to_N (97 + j)))
                    (String (rankDigit (8 - i)) "")).
Proof. intros Hi Hj. index_cases i; index_cases j; split; reflexivity. Qed.

Lemma squareOfCell_square i j :
  0 <= i <= 7 -> 0 <= j <= 7 ->
  exists s, squareOfCell i j = Some s /\ Chess.isSquare s = true.
Proof.
  intros Hi Hj. index_cases i; index_cases j; eexists; split; reflexivity.
Qed.

Lemma ascii_of_N_inj (a b : N) :
  (a < 256)%N -> (b < 256)%N -> ascii_of_N a = ascii_of_N b -> a = b.
Proof.
  intros Ha Hb H. apply (f_equal N_of_ascii) in H.
  now rewrite !N_ascii_embedding in H.
Qed.

Lemma squareOfCell_inj p q :
  onBoard p -> onBoard q ->
  squareOfCell p.1 p.2 = squareOfCell q.1 q.2 -> p = q.
Proof.
  destruct p as [i j], q as [i' j']. unfold onBoard. simpl.
  intros [Hi Hj] [Hi' Hj'].
  rewrite (proj2 (squareOfCell_name i j Hi Hj)).
  rewrite (proj2 (squareOfCell_name i' j' Hi' Hj')).
  unfold rankDigit. intros [= Hf Hr].
  apply ascii_of_N_inj in Hf; [|lia..].
  apply ascii_of_N_inj in Hr; [|lia..].
  f_equal; lia.
Qed.

Lemma isPieceCode_cell cell :
  (String.length cell <= 1)%nat ->
  isPieceCode cell = lowersToPiece cell
  /\ (lowersToPiece cell = true ->
      pieceOfCode cell = pieceOfCell cell
      /\ Js.includes Chess.symbols (Js.toLowerCase (type (pieceOfCell cell)))
         = true
      /\ (color (pieceOfCell cell) = "w" \/ color (pieceOfCell cell) = "b")).
Proof.
  destruct cell as [|c [|d cell]]; simpl String.length; intros Hlen;
    [split; [reflexivity|discriminate]| |lia].
  destruct c as [[] [] [] [] [] [] [] []];
    (split; [reflexivity|]); try discriminate; intros _;
    (split; [reflexivity|]); (split; [reflexivity|]);
    ((left; reflexivity) || (right; reflexivity)).
Qed.

Lemma isKingOf_cell c cell :
  isKingOf c cell = true <->
  lowersToPiece cell = true /\ type (pieceOfCell cell) = "k"
  /\ color (pieceOfCell cell) = c.
Proof.
  unfold isKingOf. rewrite !andb_true_iff, !String.eqb_eq. tauto.
Qed.

Lemma filter_snoc_length {A} (P : A -> Prop) `{forall x, Decision (P x)}
      (l : list A) (x : A) :
  P x -> (length (filter P (l ++ [x])%list) <= 1)%nat ->
  forall y, y ∈ l -> ~ P y.
Proof.
  intros Hx Hlen y Hy Hpy.
  rewrite filter_app, length_app, filter_cons_True, filter_nil in Hlen
    by exact Hx.
  simpl in Hlen.
  assert (Hin : y ∈ filter P l) by (apply list_elem_of_filter; now split).
  destruct (filter P l); [inversion Hin|simpl in Hlen; lia].
Qed.

Lemma foldl_loadCell l :
  Forall cellOk l -> NoDup l.*1 ->
  (forall c, (length (filter (cellHas (isKingOf c)) l) <= 1)%nat) ->
  size (Chess.squares (foldl loadCell Chess.clear l))
  = length (filter (cellHas lowersToPiece) l)
  /\ (forall x, x ∈ l ->
        Chess.get (squareOfCell x.1.1 x.1.2) (foldl loadCell Chess.clear l)
        = if lowersToPiece x.2 then Some (pieceOfCell x.2) else None)
  /\ (forall k, is_Some (foldl loadCell Chess.clear l !! k) ->
        exists x, x ∈ l /\ squareOfCell x.1.1 x.1.2 = Some k)
  /\ (forall c, is_Some (Chess.kings (foldl loadCell Chess.clear l) !! c) ->
        exists x, x ∈ l /\ cellHas (isKingOf c) x).
Proof.
  induction l as [|x l IH] using rev_ind; intros Hok Hnd Hkings.
  - simpl. split; [apply map_size_empty|].
    split; [intros x Hx; inversion Hx|].
    split; intros k [p Hp]; board_lookup; simpl in Hp;
      now rewrite lookup_empty in Hp.
  - apply Forall_app in Hok as [Hok Hx]. apply Forall_inv in Hx.
    rewrite fmap_app in Hnd. apply NoDup_app in Hnd as (Hnd & Hfresh & _).
    assert (Hkings' : forall c,
               (length (filter (cellHas (isKingOf c)) l) <= 1)%nat).
    { intros c. specialize (Hkings c).
      rewrite filter_app, length_app in Hkings. lia. }
    destruct (IH Hok Hnd Hkings') as (IHsize & IHget & IHdom & IHking).
    clear IH.
    destruct Hx as [Hboard Hlen].
    destruct (squareOfCell_square x.1.1 x.1.2) as (s & Hs & Hsq);
      [apply Hboard..|].
    assert (Hother : forall y, y ∈ l -> squareOfCell y.1.1 y.1.2 <> Some s).
    { intros y Hy Hys.
      assert (Hyb : onBoard y.1).
      { rewrite Forall_forall in Hok. apply Hok. exact Hy. }
      rewrite <- Hs in Hys. apply squareOfCell_inj in Hys; [|assumption..].
      apply (Hfresh y.1).
      - apply list_elem_of_fmap. now exists y.
      - rewrite Hys. simpl. apply list_elem_of_here. }
    assert (Hnew : Chess.squares (foldl loadCell Chess.clear l) !! s = None).
    { destruct (Chess.squares (foldl loadCell Chess.clear l) !! s) as [p|] eqn:Hp;
        [|reflexivity].
      exfalso. destruct (IHdom s) as (y & Hy & Hys); [now exists p|].
      now apply (Hother y). }
    rewrite foldl_app, filter_app, length_app. simpl foldl.
    set (B := foldl loadCell Chess.clear l) in *.
    destruct (isPieceCode_cell x.2 Hlen) as [Hcode Hpiece].
    destruct x as [[i j] cell]. cbn [fst snd] in *.
    destruct (lowersToPiece cell) eqn:Hletter.
    + destruct (Hpiece eq_refl) as (Hp & Hsym & Hcol).
      assert (Hallow : Chess.kingAllowed (pieceOfCell cell) s B = true).
      { unfold Chess.kingAllowed.
        destruct (String.eqb (type (pieceOfCell cell)) "k") eqn:Hk;
          [|reflexivity].
        apply String.eqb_eq in Hk.
        assert (Hwb : String.eqb (color (pieceOfCell cell)) "w"
                      || String.eqb (color (pieceOfCell cell)) "b" = true).
        { destruct Hcol as [-> | ->]; reflexivity. }
        rewrite Hwb. cbn [andb].
        destruct (Chess.kings B !! color (pieceOfCell cell)) as [k|] eqn:Hkk;
          [|reflexivity].
        exfalso. destruct (IHking (color (pieceOfCell cell))) as (y & Hy & Hyk);
          [now exists k|].
        apply (filter_snoc_length (cellHas (isKingOf (color (pieceOfCell cell))))
                 l (i, j, cell)) with (y := y); try assumption.
        - unfold cellHas. simpl. apply isKingOf_cell. now repeat split.
        - apply Hkings. }
      unfold loadCell. rewrite Hcode. unfold Chess.put.
      rewrite Hp, Hsym, Hs, Hsq, Hallow, filter_cons_True, filter_nil
        by exact Hletter.
      cbn [negb andb length Chess.squares Chess.kings].
      split; [rewrite map_size_insert_None by exact Hnew; lia|].
      split; [|split].
      * intros y Hy. apply elem_of_app in Hy as [Hy|Hy].
        -- pose proof (Hother y Hy) as Hne. pose proof (IHget y Hy) as Hget.
           destruct (squareOfCell y.1.1 y.1.2) as [t|]; simpl in *;
             [|exact Hget].
           board_lookup. simpl.
           rewrite lookup_insert_ne by congruence. exact Hget.
        -- apply list_elem_of_singleton in Hy. subst y. simpl.
           rewrite Hs, Hletter. simpl. board_lookup. simpl.
           now rewrite lookup_insert_eq.
      * intros k Hk. board_lookup. simpl in Hk.
        destruct (decide (s = k)) as [<-|Hne].
        -- exists (i, j, cell). split; [apply elem_of_app; right|exact Hs].
           apply list_elem_of_here.
        -- rewrite lookup_insert_ne in Hk by exact Hne.
           destruct (IHdom k Hk) as (y & Hy & Hys).
           exists y. split; [apply elem_of_app; now left|exact Hys].
      * intros c Hc.
        destruct (String.eqb (type (pieceOfCell cell)) "k") eqn:Hk.
        -- destruct (decide (color (pieceOfCell cell) = c)) as [<-|Hne].
           ++ exists (i, j, cell). split; [apply elem_of_app; right;
                                            apply list_elem_of_here|].
              unfold cellHas. simpl. apply isKingOf_cell.
              apply String.eqb_eq in Hk. now repeat split.
           ++ rewrite lookup_insert_ne in Hc by exact Hne.
              destruct (IHking c Hc) as (y & Hy & Hyk).
              exists y. split; [apply elem_of_app; now left|exact Hyk].
        -- destruct (IHking c Hc) as (y & Hy & Hyk).
           exists y. split; [apply elem_of_app; now left|exact Hyk].
    + unfold loadCell.
      rewrite Hcode, filter_cons_False, filter_nil
        by (unfold cellHas; simpl; congruence).
      cbn [length].
      split; [lia|]. split; [|split].
      * intros y Hy. apply elem_of_app in Hy as [Hy|Hy]; [now apply IHget|].
        apply list_elem_of_singleton in Hy. subst y. simpl.
        rewrite Hs, Hletter. simpl. exact Hnew.
      * intros k Hk. destruct (IHdom k Hk) as (y & Hy & Hys).
        exists y. split; [apply elem_of_app; now left|exact Hys].
      * intros c Hc. destruct (IHking c Hc) as (y & Hy & Hyk).
        exists y. split; [apply elem_of_app; now left|exact Hyk].
Qed.

Lemma filter_indexRow (P : string -> bool) cells : forall i j,
  length (filter (cellHas P) (indexRow cells i j))
  = length (filter (fun c => P c = true) cells).
Proof.
  induction cells as [|cell cells IH]; intros i j; simpl; [reflexivity|].
  rewrite !filter_cons. unfold cellHas at 1. simpl.
  destruct (decide (P cell = true)); simpl; now rewrite IH.
Qed.

Lemma filter_indexRows (P : string -> bool) rows : forall i,
  length (filter (cellHas P) (indexRows rows i)) = countCells P rows.
Proof.
  unfold countCells.
  induction rows as [|cells rows IH]; intros i; simpl; [reflexivity|].
  now rewrite filter_app, length_app, filter_indexRow, IH.
Qed.

Lemma isKingOf_colour c cell :
  isKingOf c cell = true -> c = "w" \/ c = "b".
Proof.
  intros H. apply isKingOf_cell in H as (_ & _ & <-).
  unfold pieceOfCell. cbn [color].
  destruct (existsb (String.eqb cell) whiteLetters); [now left|now right].
Qed.

Lemma oneKingEach_cells array c :
  oneKingEach array = true ->
  (length (filter (cellHas (isKingOf c)) (indexRows array 0)) <= 1)%nat.
Proof.
  intros H. apply andb_true_iff in H as [Hw Hb].
  apply Nat.leb_le in Hw, Hb.
  destruct (decide (c = "w")) as [->|Hnw];
    [now rewrite filter_indexRows|].
  destruct (decide (c = "b")) as [->|Hnb];
    [now rewrite filter_indexRows|].
  destruct (filter (cellHas (isKingOf c)) (indexRows array 0)) as [|y r] eqn:E;
    [simpl; lia|].
  assert (Hy : y ∈ filter (cellHas (isKingOf c)) (indexRows array 0))
    by (rewrite E; apply list_elem_of_here).
  apply list_elem_of_filter in Hy as [Hy _].
  destruct (isKingOf_colour c y.2 Hy); contradiction.
Qed.

Lemma isBoardGrid_cells array :
  isBoardGrid array = true -> Forall cellOk (indexRows array 0).
Proof.
  unfold isBoardGrid. intros H. apply andb_true_iff in H as [Hrows Hall].
  apply Nat.leb_le in Hrows. rewrite forallb_forall in Hall.
  apply Forall_forall. intros x Hx.
  apply elem_of_indexRows in Hx as (k & l & cells & Hk & Hl & Hpos).
  pose proof (lookup_lt_Some _ _ _ Hk) as Hklt.
  pose proof (lookup_lt_Some _ _ _ Hl) as Hllt.
  specialize (Hall cells).
  rewrite <- list_elem_of_In, list_elem_of_lookup in Hall.
  specialize (Hall (ex_intro _ k Hk)).
  apply andb_true_iff in Hall as [Hcols Hcells].
  apply Nat.leb_le in Hcols. rewrite forallb_forall in Hcells.
  specialize (Hcells x.2).
  rewrite <- list_elem_of_In, list_elem_of_lookup in Hcells.
  specialize (Hcells (ex_intro _ l Hl)). apply Nat.leb_le in Hcells.
  split; [|exact Hcells].
  unfold onBoard. rewrite Hpos. simpl. lia.
Qed.

(** C3 (amended).  For a grid of at most 8 rows of at most 8 cells, each
    cell empty or one character, with at most one white-king cell and at
    most one black-king cell: after [loadArray] the number of occupied
    squares is the number of cells whose lower case is one of p, b, n, r,
    q, k; the square of cell (i, j), file j of a..h on rank 8 - i, holds
    the piece whose kind is the lower-cased cell and whose colour is
    white iff the cell is one of P, B, N, R, Q, K, and is empty when the
    cell is no such letter; a grid loaded over another leaves what
    loading it alone leaves; and the object is ready. *)
Theorem loadArray_board array this :
  isBoardGrid array = true -> oneKingEach array = true ->
  size (Chess.squares (Gen.chess (loadArray array this))) = pieceCells array
  /\ (forall (i j : nat) cells cell,
        array !! i = Some cells -> cells !! j = Some cell ->
        Chess.get (squareName (Z.of_nat j) (8 - Z.of_nat i))
                  (Gen.chess (loadArray array this))
        = if lowersToPiece cell then Some (pieceOfCell cell) else None)
  /\ (forall array0,
        loadArray array (loadArray array0 this) = loadArray array this)
  /\ Gen.ready (loadArray array this) = true.
Proof.
  intros Hgrid Hkings. pose proof (isBoardGrid_cells array Hgrid) as Hok.
  destruct (foldl_loadCell (indexRows array 0) Hok (NoDup_indexRows array 0)
              (fun c => oneKingEach_cells array c Hkings))
    as (Hsize & Hget & _).
  unfold loadArray. simpl. rewrite loadArrayRows_fold.
  split; [now rewrite Hsize, filter_indexRows|].
  split; [|split; reflexivity].
  intros i j cells cell Hi Hj.
  assert (Hin : (0 + Z.of_nat i, Z.of_nat j, cell) ∈ indexRows array 0).
  { apply elem_of_indexRows. exists i, j, cells. now repeat split. }
  specialize (Hget _ Hin). simpl in Hget.
  rewrite Forall_forall in Hok. destruct (Hok _ Hin) as [[Hbi Hbj] _].
  simpl in Hbi, Hbj.
  rewrite (proj1 (squareOfCell_name _ _ Hbi Hbj)) in Hget.
  now rewrite Z.add_0_l in Hget.
Qed.

Lemma loadArray_board_sample :
  isBoardGrid kingGrid = true /\ oneKingEach kingGrid = true
  /\ size (Chess.squares (Gen.chess sampleGenerator)) = 1%nat
  /\ Chess.get (Some "a8") (Gen.chess sampleGenerator)
     = Some {| type := "k"; color := "w" |}.
Proof.
  split; [reflexivity|]. split; [reflexivity|].
  destruct (loadArray_board kingGrid
              (ChessImageGenerator sampleEnv sampleOptions) eq_refl eq_refl)
    as (Hsize & Hget & _).
  split; [exact Hsize|].
  exact (Hget 0%nat 0%nat _ "K" eq_refl eq_refl).
Defined.

(** C3 as stated fails, four ways.  A grid whose a8 cell holds "x" has
    one non-empty cell and [loadArray] leaves no occupied square; a grid
    with "K" on a8 and on b8 has two non-empty cells and [loadArray]
    leaves one occupied square, the engine refusing the second king; a
    grid with a pawn in a ninth row, and a row with a pawn in a ninth
    cell, have one non-empty cell each and [loadArray] leaves no occupied
    square. *)
Lemma loadArray_skips_stray_letter :
  (isBoardGrid strayGrid = true
   /\ nonEmptyCells strayGrid = 1%nat
   /\ size (Chess.squares
              (Gen.chess (loadArray strayGrid
                            (ChessImageGenerator sampleEnv noOptions))))
      = 0%nat)
  /\ (isBoardGrid twoKingsGrid = true
      /\ nonEmptyCells twoKingsGrid = 2%nat
      /\ size (Chess.squares
                 (Gen.chess (loadArray twoKingsGrid
                               (ChessImageGenerator sampleEnv noOptions))))
         = 1%nat)
  /\ (nonEmptyCells tallGrid = 1%nat
      /\ size (Chess.squares
                 (Gen.chess (loadArray tallGrid
                               (ChessImageGenerator sampleEnv noOptions))))
         = 0%nat)
  /\ (nonEmptyCells longRankGrid = 1%nat
      /\ size (Chess.squares
                 (Gen.chess (loadArray longRankGrid
                               (ChessImageGenerator sampleEnv noOptions))))
         = 0%nat).
Proof. repeat split. Qed.

(** ** Cells and squares *)

Lemma coords_squareOfCell flipped i j :
  coords flipped i j = squareOfCell (8 - row flipped i) (col flipped j).
Proof.
  unfold coords, squareOfCell. f_equal. lia.
Qed.

Lemma coords_square flipped i j :
  0 <= i <= 7 -> 0 <= j <= 7 ->
  exists s, coords flipped i j = Some s /\ Chess.isSquare s = true.
Proof.
  intros Hi Hj. rewrite coords_squareOfCell.
  apply squareOfCell_square; unfold row, col; destruct flipped; lia.
Qed.

Lemma coords_inj flipped i j i' j' :
  0 <= i <= 7 -> 0 <= j <= 7 -> 0 <= i' <= 7 -> 0 <= j' <= 7 ->
  coords flipped i j = coords flipped i' j' -> i = i' /\ j = j'.
Proof.
  intros Hi Hj Hi' Hj'. rewrite !coords_squareOfCell. intros H.
  apply (squareOfCell_inj (8 - row flipped i, col flipped j)
                          (8 - row flipped i', col flipped j')) in H.
  - injection H as Hr Hc. unfold row, col in *. destruct flipped; lia.
  - unfold onBoard, row, col. simpl. destruct flipped; lia.
  - unfold onBoard, row, col. simpl. destruct flipped; lia.
Qed.

Lemma square_cell flipped s :
  Chess.isSquare s = true ->
  exists i j, 0 <= i <= 7 /\ 0 <= j <= 7 /\ coords flipped i j = Some s.
Proof.
  intros Hs.
  destruct (isSquare_squareName s Hs) as (f & r & Hf & Hr & Hname).
  destruct (squareName_arrow flipped f r s Hf Hr Hname) as (_ & _ & Hc).
  exists (row flipped (r - 1) - 1), (col flipped f).
  split; [unfold row; destruct flipped; lia|].
  split; [unfold col; destruct flipped; lia|exact Hc].
Qed.

(** ** When the sprites load *)

Lemma forEach_isOk {A} (body : A -> Result (list DrawOp)) l :
  isOk (forEach body l) = forallb (fun x => isOk (body x)) l.
Proof.
  induction l as [|x l IH]; simpl; [reflexivity|].
  rewrite <- IH. destruct (body x); simpl; [|reflexivity].
  destruct (forEach body l); reflexivity.
Qed.

Lemma pieceDraw_isOk E this i j :
  isOk (pieceDraw E this i j) = true <->
  forall piece,
    Chess.get (coords (Gen.flipped this) i j) (Gen.chess this) = Some piece ->
    drawable piece = true -> loadImage E (spriteFile E this piece) = true.
Proof.
  unfold pieceDraw, drawable.
  destruct (Chess.get _ _) as [piece|]; [|split; [discriminate|reflexivity]].
  destruct (negb _ && _) eqn:Hd.
  - destruct (loadImage E _) eqn:Hl; simpl.
    + split; [|reflexivity]. intros _ p [= <-] _. exact Hl.
    + split; [discriminate|]. intros H.
      specialize (H piece eq_refl Hd). congruence.
  - split; [|reflexivity]. intros _ p [= <-]. congruence.
Qed.

Lemma drawCell_isOk E this i j :
  isOk (drawCell E this i j) = isOk (pieceDraw E this i j).
Proof. unfold drawCell. now destruct (pieceDraw E this i j). Qed.

Lemma drawBoard_isOk E this :
  isOk (drawBoard E this) = true <->
  forall i j, 0 <= i <= 7 -> 0 <= j <= 7 ->
    isOk (pieceDraw E this i j) = true.
Proof.
  unfold drawBoard. rewrite forEach_isOk, forallb_forall. split.
  - intros H i j Hi Hj.
    specialize (H i). rewrite <- list_elem_of_In, elem_of_seqZ in H.
    specialize (H ltac:(lia)).
    rewrite forEach_isOk, forallb_forall in H.
    specialize (H j). rewrite <- list_elem_of_In, elem_of_seqZ in H.
    rewrite <- drawCell_isOk. apply H. lia.
  - intros H i Hi. rewrite <- list_elem_of_In, elem_of_seqZ in Hi.
    rewrite forEach_isOk, forallb_forall. intros j Hj.
    rewrite <- list_elem_of_In, elem_of_seqZ in Hj.
    rewrite drawCell_isOk. apply H; lia.
Qed.

(** ** The calls of a cell *)

Local Open Scope Q_scope.

Lemma cellOps_rect E this i j op :
  In op (cellOps E this i j) ->
  opRect op
  = Some ((Gen.size this / 8) * n (7 - j + 1) - Gen.size this / 8
          + p3 (Gen.padding this),
          (Gen.size this / 8) * n i + p0 (Gen.padding this),
          Gen.size this / 8,
          Gen.size this / 8).
Proof.
  unfold cellOps, drawCell.
  destruct (pieceDraw E this i j) as [sprite|e] eqn:Hp; simpl; [|tauto].
  rewrite !in_app_iff. intros [H|[H|H]].
  - unfold darkFill in H. destruct (_ =? _)%Z; simpl in H; [|tauto].
    destruct H as [<-|[]]. reflexivity.
  - unfold highlightFill in H. destruct (coords _ _ _); simpl in H; [|tauto].
    destruct (Js.arrayIncludes _ _); simpl in H; [|tauto].
    destruct H as [<-|[]]. reflexivity.
  - unfold pieceDraw in Hp.
    destruct (Chess.get _ _) as [piece|]; [|injection Hp as <-; destruct H].
    destruct (_ && _); [|injection Hp as <-; destruct H].
    destruct (loadImage E _); [|discriminate].
    injection Hp as <-. destruct H as [<-|[]]. reflexivity.
Qed.

Lemma generateBuffer_ok E this canvas :
  snd (generateBuffer E this) = Ok canvas ->
  isOk (drawBoard E this) = true
  /\ exists arrows,
       canvas
       = {| width := Gen.size this + p1 (Gen.padding this)
                     + p3 (Gen.padding this);
            height := Gen.size this + p0 (Gen.padding this)
                      + p2 (Gen.padding this);
            ops := FillRect 0 0
                     (Gen.size this + p1 (Gen.padding this)
                      + p3 (Gen.padding this))
                     (Gen.size this + p0 (Gen.padding this)
                      + p2 (Gen.padding this))
                     (Gen.light this)
                   :: (flat_map
                         (fun i => flat_map (fun j => cellOps E this i j)
                                            (seqZ 0 8))
                         (seqZ 0 8)
                       ++ arrows)%list |}.
Proof.
  unfold generateBuffer. destruct (Gen.ready this); simpl; [|discriminate].
  unfold render.
  destruct (drawBoard E this) as [cells|e] eqn:Hb; simpl; [|discriminate].
  destruct (drawArrows this) as [arrows|e]; simpl; [|discriminate].
  intros [= <-]. split; [reflexivity|]. exists arrows.
  now rewrite (drawBoard_ok E this cells Hb).
Qed.

Lemma cellOps_on_canvas E this canvas i j op :
  snd (generateBuffer E this) = Ok canvas ->
  (0 <= i <= 7)%Z -> (0 <= j <= 7)%Z ->
  In op (cellOps E this i j) -> In op (ops canvas).
Proof.
  intros Hgen Hi Hj Hop.
  destruct (generateBuffer_ok E this canvas Hgen) as (_ & arrows & ->).
  cbn [ops]. right. apply in_or_app. left.
  apply in_flat_map. exists i.
  split; [apply list_elem_of_In, elem_of_seqZ; lia|].
  apply in_flat_map. exists j.
  split; [apply list_elem_of_In, elem_of_seqZ; lia|exact Hop].
Qed.

(** The calls of a cell whose sprite, if any, loads: the three parts of
    the loop body, in order. *)
Lemma cellOps_parts E this i j :
  isOk (pieceDraw E this i j) = true ->
  cellOps E this i j
  = ((if Z.even (i + j)
      then [FillRect
              ((Gen.size this / 8) * n (7 - j + 1) - Gen.size this / 8
               + p3 (Gen.padding this))
              ((Gen.size this / 8) * n i + p0 (Gen.padding this))
              (Gen.size this / 8) (Gen.size this / 8) (Gen.dark this)]
      else [])
     ++ highlightFill this i j ++ opsOf (pieceDraw E this i j))%list
  \/ ~ (0 <= i + j)%Z.
Proof.
  intros Hok. destruct (Z_le_gt_dec 0 (i + j)) as [Hpos|Hneg]; [left|right; lia].
  unfold cellOps, drawCell.
  destruct (pieceDraw E this i j) as [sprite|e]; [|discriminate Hok].
  simpl. unfold darkFill. now rewrite rem2_even by exact Hpos.
Qed.

Lemma pieceDraw_flipped E this f i j :
  isOk (drawBoard E this) = true ->
  (0 <= i <= 7)%Z -> (0 <= j <= 7)%Z ->
  isOk (pieceDraw E (Gen.set_flipped f this) i j) = true.
Proof.
  intros Hok Hi Hj. apply pieceDraw_isOk. intros piece Hget Hd.
  change (Gen.flipped (Gen.set_flipped f this)) with f in Hget.
  change (Gen.chess (Gen.set_flipped f this)) with (Gen.chess this) in Hget.
  destruct (coords_square f i j Hi Hj) as (s & Hc & Hs).
  destruct (square_cell (Gen.flipped this) s Hs) as (i' & j' & Hi' & Hj' & Hc').
  pose proof (proj1 (drawBoard_isOk E this) Hok i' j' Hi' Hj') as Hcell.
  rewrite pieceDraw_isOk in Hcell.
  change (spriteFile E (Gen.set_flipped f this) piece)
    with (spriteFile E this piece).
  apply Hcell; [|exact Hd]. now rewrite Hc', <- Hc.
Qed.

(** C6.  When [generateBuffer] returns a canvas, the calls of cell (i, j)
    of the loop are, in order, the dark fill (one rectangle of the cell
    in the dark colour) exactly when i + j is even, then the highlight
    fill, then the sprite, and all of them are on the canvas.  The same
    holds with the flip flag set either way: whether the dark fill is
    issued depends on i + j only.  Unflipped, the calls of the cell named
    a1 start with the dark fill, and the cell named h1 issues the
    highlight fill and the sprite only. *)
Theorem dark_fill_parity E this canvas i j :
  snd (generateBuffer E this) = Ok canvas ->
  (0 <= i <= 7)%Z -> (0 <= j <= 7)%Z ->
  let fill :=
    FillRect
      ((Gen.size this / 8) * n (7 - j + 1) - Gen.size this / 8
       + p3 (Gen.padding this))
      ((Gen.size this / 8) * n i + p0 (Gen.padding this))
      (Gen.size this / 8) (Gen.size this / 8) (Gen.dark this) in
  let dark := if Z.even (i + j) then [fill] else [] in
  cellOps E this i j
  = (dark ++ highlightFill this i j ++ opsOf (pieceDraw E this i j))%list
  /\ (forall op, In op (cellOps E this i j) -> In op (ops canvas))
  /\ (forall f,
        cellOps E (Gen.set_flipped f this) i j
        = (dark ++ highlightFill (Gen.set_flipped f this) i j
                ++ opsOf (pieceDraw E (Gen.set_flipped f this) i j))%list)
  /\ (coords false i j = Some "a1" ->
      exists rest, cellOps E (Gen.set_flipped false this) i j = fill :: rest)
  /\ (coords false i j = Some "h1" ->
      cellOps E (Gen.set_flipped false this) i j
      = (highlightFill (Gen.set_flipped false this) i j
         ++ opsOf (pieceDraw E (Gen.set_flipped false this) i j))%list).
Proof.
  intros Hgen Hi Hj fill dark.
  destruct (generateBuffer_ok E this canvas Hgen) as (Hok & _).
  assert (Hflip : forall f,
            cellOps E (Gen.set_flipped f this) i j
            = (dark ++ highlightFill (Gen.set_flipped f this) i j
                    ++ opsOf (pieceDraw E (Gen.set_flipped f this) i j))%list).
  { intros f.
    destruct (cellOps_parts E (Gen.set_flipped f this) i j
                (pieceDraw_flipped E this f i j Hok Hi Hj)) as [H|H];
      [exact H|lia]. }
  split.
  { destruct (cellOps_parts E this i j
                (proj1 (drawBoard_isOk E this) Hok i j Hi Hj)) as [H|H];
      [exact H|lia]. }
  split; [intros op; now apply cellOps_on_canvas|].
  split; [exact Hflip|].
  split; intros Hsq; rewrite Hflip; unfold dark.
  - assert (Heven : Z.even (i + j) = true)
      by (index_cases i; index_cases j; try discriminate Hsq; reflexivity).
    rewrite Heven. now eexists.
  - assert (Hodd : Z.even (i + j) = false)
      by (index_cases i; index_cases j; try discriminate Hsq; reflexivity).
    now rewrite Hodd.
Qed.

Lemma dark_fill_parity_sample :
  snd (generateBuffer sampleEnv pictureGenerator) = Ok pictureCanvas
  /\ (coords false 7 7 = Some "a1"
      /\ cellOps sampleEnv pictureGenerator 7 7
         = [FillRect ((400 / 8) * n (7 - 7 + 1) - 400 / 8 + 0)
                     ((400 / 8) * n 7 + 0) (400 / 8) (400 / 8)
                     "rgb(181, 136, 99)";
            FillRect ((400 / 8) * n (7 - 7 + 1) - 400 / 8 + 0)
                     ((400 / 8) * n 7 + 0) (400 / 8) (400 / 8)
                     "rgba(235, 97, 80, 0.8)"]
      /\ In (FillRect ((400 / 8) * n (7 - 7 + 1) - 400 / 8 + 0)
                      ((400 / 8) * n 7 + 0) (400 / 8) (400 / 8)
                      "rgb(181, 136, 99)")
            (ops pictureCanvas))
  /\ (coords false 7 0 = Some "h1"
      /\ cellOps sampleEnv pictureGenerator 7 0 = []).
Proof.
  assert (Hgen : snd (generateBuffer sampleEnv pictureGenerator)
                 = Ok pictureCanvas) by (vm_compute; reflexivity).
  split; [exact Hgen|]. split.
  - destruct (dark_fill_parity sampleEnv pictureGenerator pictureCanvas 7 7
                Hgen ltac:(lia) ltac:(lia)) as (Hcell & Hon & _).
    split; [reflexivity|]. split; [exact Hcell|].
    apply Hon. rewrite Hcell. left. reflexivity.
  - destruct (dark_fill_parity sampleEnv pictureGenerator pictureCanvas 7 0
                Hgen ltac:(lia) ltac:(lia)) as (Hcell & _).
    split; [reflexivity|exact Hcell].
Defined.

(** C8.  When [generateBuffer] returns a canvas, its width is size +
    padding left + padding right and its height is size + padding top +
    padding bottom; its calls are the background fill, then the calls of
    the 64 cells in loop order, then the arrows.  Cell (i, j) of the loop
    shows a square and issues, in this order and all on the rectangle
    x = (size/8) * (7 - j + 1) - size/8 + padding left,
    y = (size/8) * i + padding top, width = height = size/8:
    the dark fill when i + j is even, the highlight fill when its square
    is highlighted, and the sprite of the piece on its square when that
    piece passes the piece guard; it issues nothing else, and each of
    these calls is on the canvas. *)
Theorem canvas_and_cell_rectangles E this canvas :
  let size := Gen.size this in
  let top := p0 (Gen.padding this) in
  let right := p1 (Gen.padding this) in
  let bottom := p2 (Gen.padding this) in
  let left := p3 (Gen.padding this) in
  let x := fun j : Z => (size / 8) * n (7 - j + 1) - size / 8 + left in
  let y := fun i : Z => (size / 8) * n i + top in
  snd (generateBuffer E this) = Ok canvas ->
  width canvas == size + left + right
  /\ height canvas == size + top + bottom
  /\ (exists arrows,
        ops canvas
        = FillRect 0 0 (width canvas) (height canvas) (Gen.light this)
          :: (flat_map
                (fun i => flat_map (fun j => cellOps E this i j) (seqZ 0 8))
                (seqZ 0 8)
              ++ arrows)%list)
  /\ (forall i j, (0 <= i <= 7)%Z -> (0 <= j <= 7)%Z ->
      exists s,
        coords (Gen.flipped this) i j = Some s
        /\ cellOps E this i j
           = ((if Z.even (i + j)
               then [FillRect (x j) (y i) (size / 8) (size / 8)
                              (Gen.dark this)]
               else [])
              ++ (if Js.arrayIncludes (Gen.highlightedSquares this) s
                  then [FillRect (x j) (y i) (size / 8) (size / 8)
                                 (Gen.highlight this)]
                  else [])
              ++ match Gen.chess this !! s with
                 | Some piece =>
                     if drawable piece
                     then [DrawImage (spriteFile E this piece)
                                     (x j) (y i) (size / 8) (size / 8)]
                     else []
                 | None => []
                 end)%list
        /\ (forall op, In op (cellOps E this i j) ->
              In op (ops canvas)
              /\ opRect op = Some (x j, y i, size / 8, size / 8))).
Proof.
  intros size top right bottom left x y Hgen.
  destruct (generateBuffer_ok E this canvas Hgen) as (Hok & arrows & Hcanvas).
  split; [rewrite Hcanvas; simpl; subst size left right; ring|].
  split; [rewrite Hcanvas; simpl; subst size top bottom; ring|].
  split; [exists arrows; rewrite Hcanvas; reflexivity|].
  intros i j Hi Hj.
  destruct (coords_square (Gen.flipped this) i j Hi Hj) as (s & Hc & _).
  exists s. split; [exact Hc|].
  pose proof (proj1 (drawBoard_isOk E this) Hok i j Hi Hj) as Hcell.
  split.
  - destruct (cellOps_parts E this i j Hcell) as [->|H]; [|lia].
    f_equal. f_equal.
    + unfold highlightFill. now rewrite Hc.
    + unfold pieceDraw, drawable in *. rewrite Hc in *. simpl Chess.get in *.
      destruct (Gen.chess this !! s) as [piece|]; [|reflexivity].
      destruct (negb _ && _); [|reflexivity].
      destruct (loadImage E _); [reflexivity|discriminate Hcell].
  - intros op Hop. split; [now apply (cellOps_on_canvas E this canvas i j)|].
    exact (cellOps_rect E this i j op Hop).
Qed.

Lemma canvas_and_cell_rectangles_sample :
  snd (generateBuffer sampleEnv pictureGenerator) = Ok pictureCanvas
  /\ width pictureCanvas == 400 /\ height pictureCanvas == 400
  /\ cellOps sampleEnv pictureGenerator 7 7
     = [FillRect ((400 / 8) * n (7 - 7 + 1) - 400 / 8 + 0)
                 ((400 / 8) * n 7 + 0) (400 / 8) (400 / 8)
                 "rgb(181, 136, 99)";
        FillRect ((400 / 8) * n (7 - 7 + 1) - 400 / 8 + 0)
                 ((400 / 8) * n 7 + 0) (400 / 8) (400 / 8)
                 "rgba(235, 97, 80, 0.8)"]
  /\ cellOps sampleEnv pictureGenerator 0 7
     = [DrawImage "resources/merida/wk.png"
                  ((400 / 8) * n (7 - 7 + 1) - 400 / 8 + 0)
                  ((400 / 8) * n 0 + 0) (400 / 8) (400 / 8)]
  /\ In (DrawImage "resources/merida/wk.png"
                   ((400 / 8) * n (7 - 7 + 1) - 400 / 8 + 0)
                   ((400 / 8) * n 0 + 0) (400 / 8) (400 / 8))
        (ops pictureCanvas).
Proof.
  assert (Hgen : snd (generateBuffer sampleEnv pictureGenerator)
                 = Ok pictureCanvas) by (vm_compute; reflexivity).
  split; [exact Hgen|].
  destruct (canvas_and_cell_rectangles sampleEnv pictureGenerator
              pictureCanvas Hgen) as (Hw & Hh & _ & Hcells).
  split; [exact Hw|]. split; [exact Hh|].
  destruct (Hcells 7%Z 7%Z ltac:(lia) ltac:(lia)) as (s & Hs & Hcell & _).
  injection Hs as <-.
  destruct (Hcells 0%Z 7%Z ltac:(lia) ltac:(lia)) as (s & Hs & Hking & Hon).
  injection Hs as <-.
  split; [exact Hcell|]. split; [exact Hking|].
  apply Hon. rewrite Hking. left. reflexivity.
Defined.

Local Close Scope Q_scope.

(** * Further properties of the code *)

(** ** Sessions *)

Lemma run_app E calls rest : forall this,
  run E (calls ++ rest) this = run E rest (run E calls this).
Proof.
  induction calls as [|c calls IH]; intros this; simpl; [reflexivity|].
  apply IH.
Qed.

Lemma perform_configuration E c this :
  configuration (fst (perform E c this)) = configuration this.
Proof.
  destruct c; simpl; try reflexivity.
  - unfold loadPGN. destruct (load_pgn E pgn (Gen.chess this)) as [[] b];
      reflexivity.
  - unfold loadFEN. destruct (load E fen (Gen.chess this)) as [[] b];
      reflexivity.
  - pose proof (generateBuffer_fst E this) as H.
    destruct (generateBuffer E this); simpl in *; now subst.
  - pose proof (generatePNG_fst E pngPath this) as H.
    destruct (generatePNG E pngPath this); simpl in *; now subst.
Qed.

Lemma perform_highlights E c this :
  isHighlightSquares c = false ->
  Gen.highlightedSquares (fst (perform E c this))
  = Gen.highlightedSquares this.
Proof.
  destruct c; simpl; try discriminate; intros _; try reflexivity.
  - unfold loadPGN. destruct (load_pgn E pgn (Gen.chess this)) as [[] b];
      reflexivity.
  - unfold loadFEN. destruct (load E fen (Gen.chess this)) as [[] b];
      reflexivity.
  - pose proof (generateBuffer_fst E this) as H.
    destruct (generateBuffer E this); simpl in *; now subst.
  - pose proof (generatePNG_fst E pngPath this) as H.
    destruct (generatePNG E pngPath this); simpl in *; now subst.
Qed.

Lemma run_highlights E calls : forall this,
  existsb isHighlightSquares calls = false ->
  Gen.highlightedSquares (run E calls this) = Gen.highlightedSquares this.
Proof.
  induction calls as [|c calls IH]; intros this; simpl; [reflexivity|].
  intros H. apply orb_false_iff in H as [Hc Hrest].
  rewrite IH by exact Hrest. now apply perform_highlights.
Qed.

Lemma perform_chess E c this :
  isLoad c = false -> Gen.chess (fst (perform E c this)) = Gen.chess this.
Proof.
  destruct c; simpl; try discriminate; intros _; try reflexivity.
  - pose proof (generateBuffer_fst E this) as H.
    destruct (generateBuffer E this); simpl in *; now subst.
  - pose proof (generatePNG_fst E pngPath this) as H.
    destruct (generatePNG E pngPath this); simpl in *; now subst.
Qed.

Lemma run_chess E calls : forall this,
  existsb isLoad calls = false ->
  Gen.chess (run E calls this) = Gen.chess this.
Proof.
  induction calls as [|c calls IH]; intros this; simpl; [reflexivity|].
  intros H. apply orb_false_iff in H as [Hc Hrest].
  rewrite IH by exact Hrest. now apply perform_chess.
Qed.

Lemma loadSucceeded_no_load E calls : forall this,
  existsb isLoad calls = false -> loadSucceeded E calls this = false.
Proof.
  induction calls as [|c calls IH]; intros this; simpl; [reflexivity|].
  intros H. apply orb_false_iff in H as [Hc Hrest].
  rewrite Hc, IH by exact Hrest. reflexivity.
Qed.

(** X1.  No method changes size, padding, the three colours, the style or
    the flip flag: after any sequence of calls they are what the
    constructor set. *)
Theorem session_keeps_configuration E options calls :
  configuration (run E calls (ChessImageGenerator E options))
  = (Js.or (opt_size options) (defaultSize E),
     Js.or (opt_padding options) (defaultPadding E),
     Js.or (opt_light options) (defaultLight E),
     Js.or (opt_dark options) (defaultDark E),
     Js.or (opt_highlight options) (defaultHighlight E),
     Js.or (opt_style options) (defaultStyle E),
     Js.or (opt_flipped options) false).
Proof.
  change (configuration (run E calls (ChessImageGenerator E options))
          = configuration (ChessImageGenerator E options)).
  generalize (ChessImageGenerator E options).
  induction calls as [|c calls IH]; intros this; simpl; [reflexivity|].
  now rewrite IH, perform_configuration.
Qed.

(** X2.  No method resets readiness: an object that is ready stays ready
    through any further calls, rejected loads included. *)
Theorem ready_is_never_reset E calls this :
  Gen.ready this = true -> Gen.ready (run E calls this) = true.
Proof. intros H. now rewrite run_ready, H. Qed.

Lemma ready_is_never_reset_sample :
  Gen.ready sampleGenerator = true
  /\ Gen.ready
       (run sampleEnv
            [CallLoadFEN "not a position"; CallLoadPGN "1. e4 e5";
             CallGenerateBuffer]
            sampleGenerator) = true.
Proof.
  split; [reflexivity|].
  apply (ready_is_never_reset sampleEnv). reflexivity.
Defined.

(** X3.  Each mutable field has its own writers: a sequence of calls
    without a load call leaves the board and readiness alone, one without
    [addArrows] leaves the arrows alone, one without [highlightSquares]
    leaves the highlighted squares alone. *)
Theorem session_frame E calls this :
  (existsb isLoad calls = false ->
     Gen.chess (run E calls this) = Gen.chess this
     /\ Gen.ready (run E calls this) = Gen.ready this)
  /\ (existsb isAddArrows calls = false ->
        Gen.arrows (run E calls this) = Gen.arrows this)
  /\ (existsb isHighlightSquares calls = false ->
        Gen.highlightedSquares (run E calls this)
        = Gen.highlightedSquares this).
Proof.
  split; [|split].
  - intros H. split; [now apply run_chess|].
    rewrite run_ready, loadSucceeded_no_load by exact H.
    apply orb_false_r.
  - apply run_arrows.
  - apply run_highlights.
Qed.

Lemma session_frame_sample :
  Gen.chess (run sampleEnv
               [CallHighlightSquares ["a1"]; CallAddArrows sampleArrows;
                CallGeneratePNG "test.png"] sampleGenerator)
  = Gen.chess sampleGenerator
  /\ Gen.arrows (run sampleEnv [CallLoadArray strayGrid; CallGenerateBuffer]
                    sampleGenerator) = None.
Proof.
  split.
  - apply (session_frame sampleEnv
             [CallHighlightSquares ["a1"]; CallAddArrows sampleArrows;
              CallGeneratePNG "test.png"] sampleGenerator).
    reflexivity.
  - apply (session_frame sampleEnv [CallLoadArray strayGrid; CallGenerateBuffer]
             sampleGenerator).
    reflexivity.
Defined.

(** X4.  [addArrows] and [highlightSquares] replace, they do not append:
    after a session the arrows are those of the last [addArrows] call and
    the highlighted squares those of the last [highlightSquares] call. *)
Theorem last_call_wins E calls rest this arrows squares :
  (existsb isAddArrows rest = false ->
     Gen.arrows (run E (calls ++ CallAddArrows arrows :: rest) this)%list
     = Some arrows)
  /\ (existsb isHighlightSquares rest = false ->
        Gen.highlightedSquares
          (run E (calls ++ CallHighlightSquares squares :: rest) this)%list
        = squares).
Proof.
  split; intros H; rewrite run_app; simpl.
  - now rewrite run_arrows.
  - now rewrite run_highlights.
Qed.

Lemma last_call_wins_sample :
  Gen.arrows
    (run sampleEnv
         ([CallAddArrows sampleArrows]
          ++ CallAddArrows [] :: [CallGenerateBuffer])%list
         sampleGenerator) = Some []
  /\ Gen.highlightedSquares
       (run sampleEnv
            ([CallHighlightSquares ["a1"; "b4"]]
             ++ CallHighlightSquares ["h8"] :: [CallLoadArray kingGrid])%list
            sampleGenerator) = ["h8"].
Proof.
  split.
  - apply (last_call_wins sampleEnv [CallAddArrows sampleArrows]
             [CallGenerateBuffer] sampleGenerator [] []).
    reflexivity.
  - apply (last_call_wins sampleEnv [CallHighlightSquares ["a1"; "b4"]]
             [CallLoadArray kingGrid] sampleGenerator [] ["h8"]).
    reflexivity.
Defined.

(** X5.  [generatePNG] hands the file writer exactly the buffer
    [generateBuffer] returns, throws exactly what it throws, and leaves
    the object as it found it. *)
Theorem generatePNG_mirrors_generateBuffer E pngPath this :
  fst (generatePNG E pngPath this) = this
  /\ (forall canvas,
        snd (generateBuffer E this) = Ok canvas <->
        snd (generatePNG E pngPath this) = Ok (pngPath, canvas))
  /\ (forall e,
        snd (generateBuffer E this) = Throw e <->
        snd (generatePNG E pngPath this) = Throw e).
Proof.
  split; [apply generatePNG_fst|].
  unfold generatePNG, generateBuffer.
  destruct (Gen.ready this); simpl.
  - destruct (render E this) as [c|e']; simpl; split; intros x; split;
      congruence.
  - split; intros x; split; congruence.
Qed.

(** ** When rendering succeeds *)

(** X6.  [generateBuffer] returns a buffer exactly when the object is
    ready, [addArrows] has set the arrows, and the sprite of every piece
    that stands on one of the 64 squares and passes the piece guard
    loads. *)
Theorem generateBuffer_succeeds_iff E this :
  (exists canvas, snd (generateBuffer E this) = Ok canvas) <->
  Gen.ready this = true
  /\ Gen.arrows this <> None
  /\ forall s piece,
       Chess.isSquare s = true -> Gen.chess this !! s = Some piece ->
       drawable piece = true ->
       loadImage E (spriteFile E this piece) = true.
Proof.
  unfold generateBuffer, render. split.
  - intros [canvas H].
    destruct (Gen.ready this); simpl in H; [|discriminate].
    destruct (drawBoard E this) as [cells|e] eqn:Hb; simpl in H;
      [|discriminate].
    unfold drawArrows in H.
    destruct (Gen.arrows this) as [l|]; simpl in H; [|discriminate].
    split; [reflexivity|]. split; [discriminate|].
    intros s piece Hs Hp Hd.
    destruct (square_cell (Gen.flipped this) s Hs) as (i & j & Hi & Hj & Hc).
    assert (Hok : isOk (drawBoard E this) = true) by now rewrite Hb.
    rewrite drawBoard_isOk in Hok. specialize (Hok i j Hi Hj).
    rewrite pieceDraw_isOk in Hok. apply Hok; [|exact Hd].
    now rewrite Hc.
  - intros (Hready & Harrows & Hsprites). rewrite Hready. simpl.
    assert (Hok : isOk (drawBoard E this) = true).
    { apply drawBoard_isOk. intros i j Hi Hj. apply pieceDraw_isOk.
      intros piece Hget Hd.
      destruct (coords_square (Gen.flipped this) i j Hi Hj) as (s & Hc & Hs).
      rewrite Hc in Hget. now apply (Hsprites s). }
    destruct (drawBoard E this) as [cells|e]; [|discriminate]. simpl.
    unfold drawArrows. destruct (Gen.arrows this) as [l|]; [|congruence].
    simpl. now eexists.
Qed.



(** ** Where things are drawn *)

Local Open Scope Q_scope.

Lemma squareName_squareOfCell f r :
  (0 <= f <= 7)%Z -> (1 <= r <= 8)%Z ->
  squareName f r = squareOfCell (8 - r) f.
Proof.
  intros Hf Hr.
  rewrite (proj1 (squareOfCell_name (8 - r) f ltac:(lia) Hf)).
  f_equal. lia.
Qed.

Lemma coords_squareName flipped i j f r :
  (0 <= f <= 7)%Z -> (1 <= r <= 8)%Z ->
  (0 <= i <= 7)%Z -> (0 <= j <= 7)%Z ->
  coords flipped i j = squareName f r ->
  row flipped i = r /\ col flipped j = f.
Proof.
  intros Hf Hr Hi Hj.
  rewrite coords_squareOfCell, squareName_squareOfCell by assumption.
  intros H.
  apply (squareOfCell_inj (8 - row flipped i, col flipped j)%Z (8 - r, f)%Z)
    in H.
  - injection H as H1 H2. split; [lia|exact H2].
  - unfold onBoard, row, col. simpl. destruct flipped; lia.
  - unfold onBoard. simpl. lia.
Qed.

(** X8.  Where a square is drawn.  The cell that shows the square on file
    index f (0 = a) and rank r is painted, counting cells of side size/8
    from the left and top padding, in column f and row 8 - r when the
    board is not flipped (a-file left, rank 8 on top), and in column 7 - f
    and row r - 1 when it is flipped.  Every fill and sprite of that cell
    uses this square-sized rectangle. *)
Theorem square_placement E this f r i j op :
  (0 <= f <= 7)%Z -> (1 <= r <= 8)%Z ->
  (0 <= i <= 7)%Z -> (0 <= j <= 7)%Z ->
  coords (Gen.flipped this) i j = squareName f r ->
  In op (cellOps E this i j) ->
  exists x y,
    opRect op = Some (x, y, Gen.size this / 8, Gen.size this / 8)
    /\ x == p3 (Gen.padding this)
            + n (if Gen.flipped this then 7 - f else f) * (Gen.size this / 8)
    /\ y == p0 (Gen.padding this)
            + n (if Gen.flipped this then r - 1 else 8 - r)
              * (Gen.size this / 8).
Proof.
  intros Hf Hr Hi Hj Hc Hop.
  destruct (coords_squareName _ i j f r Hf Hr Hi Hj Hc) as [Hrow Hcol].
  rewrite (cellOps_rect E this i j op Hop).
  eexists _, _. split; [reflexivity|]. unfold n, row, col in *.
  destruct (Gen.flipped this).
  - subst f. replace i with (r - 1)%Z by lia.
    rewrite inject_Z_plus. split; field.
  - replace (7 - j + 1)%Z with (f + 1)%Z by lia.
    replace i with (8 - r)%Z by lia.
    rewrite inject_Z_plus. split; field.
Qed.

Lemma square_placement_sample :
  coords false 0 7 = squareName 0 8
  /\ exists op,
       In op (cellOps sampleEnv sampleGenerator 0 7)
       /\ exists x y,
            opRect op = Some (x, y, 400 / 8, 400 / 8)
            /\ x == 0 + n 0 * (400 / 8) /\ y == 0 + n (8 - 8) * (400 / 8).
Proof.
  split; [reflexivity|].
  exists (DrawImage "resources/merida/wk.png"
            ((400 / 8) * n (7 - 7 + 1) - 400 / 8 + 0)
            ((400 / 8) * n 0 + 0) (400 / 8) (400 / 8)).
  split; [left; reflexivity|].
  apply (square_placement sampleEnv sampleGenerator 0 8 0 7);
    [lia|lia|lia|lia|reflexivity|left; reflexivity].
Defined.

(** X9.  Nothing of a cell is painted outside the board: for a
    non-negative size, the rectangle of every fill and sprite of the 64
    cells lies between the left and top padding and the far edge of the
    board. *)
Theorem cells_inside_board E this i j op x y w h :
  0 <= Gen.size this ->
  (0 <= i <= 7)%Z -> (0 <= j <= 7)%Z ->
  In op (cellOps E this i j) ->
  opRect op = Some (x, y, w, h) ->
  p3 (Gen.padding this) <= x
  /\ x + w <= p3 (Gen.padding this) + Gen.size this
  /\ p0 (Gen.padding this) <= y
  /\ y + h <= p0 (Gen.padding this) + Gen.size this.
Proof.
  intros Hsize Hi Hj Hop Hrect.
  rewrite (cellOps_rect E this i j op Hop) in Hrect.
  injection Hrect as <- <- <- <-.
  assert (Hq : Gen.size this == 8 * (Gen.size this / 8)) by field.
  set (q := Gen.size this / 8) in *. clearbody q.
  unfold n. index_cases i; index_cases j;
    repeat match goal with
           | |- context [inject_Z ?z] =>
               let v := eval vm_compute in (inject_Z z) in
               change (inject_Z z) with v
           end;
    repeat split; lra.
Qed.

Lemma cells_inside_board_sample :
  0 <= Gen.size sampleGenerator
  /\ exists op x y w h,
       In op (cellOps sampleEnv sampleGenerator 0 7)
       /\ opRect op = Some (x, y, w, h)
       /\ 0 <= x /\ x + w <= 0 + 400 /\ 0 <= y /\ y + h <= 0 + 400.
Proof.
  assert (Hsize : 0 <= Gen.size sampleGenerator)
    by (vm_compute; discriminate).
  split; [exact Hsize|].
  eexists (DrawImage "resources/merida/wk.png" _ _ _ _), _, _, _, _.
  split; [left; reflexivity|]. split; [reflexivity|].
  apply (cells_inside_board sampleEnv sampleGenerator 0 7
           (DrawImage "resources/merida/wk.png"
              ((400 / 8) * n (7 - 7 + 1) - 400 / 8 + 0)
              ((400 / 8) * n 0 + 0) (400 / 8) (400 / 8)));
    [exact Hsize|lia|lia|left; reflexivity|reflexivity].
Defined.

Lemma n_add a b : n (a + b) == n a + n b.
Proof. unfold n. rewrite inject_Z_plus. reflexivity. Qed.

Lemma n_sub a b : n (a - b) == n a - n b.
Proof.
  unfold n, Z.sub. rewrite inject_Z_plus, inject_Z_opp. reflexivity.
Qed.

(** X10.  Flipping turns the picture by 180 degrees about the centre of
    the board: the square shown in cell (i, j) of the flipped board is
    the square shown in cell (7 - i, 7 - j) of the unflipped board, the
    centres of those two cells are mirror images of each other, and so
    are the two pixel points computed for an arrow end. *)
Theorem flip_is_half_turn this s i j :
  coords true i j = coords false (7 - i) (7 - j)
  /\ fst (cellCentre this i j) + fst (cellCentre this (7 - i) (7 - j))
     == Gen.size this + 2 * p3 (Gen.padding this)
  /\ snd (cellCentre this i j) + snd (cellCentre this (7 - i) (7 - j))
     == Gen.size this + 2 * p0 (Gen.padding this)
  /\ (forall x y,
        arrowEnd (Gen.set_flipped false this) s = (Some x, Some y) ->
        exists x' y',
          arrowEnd (Gen.set_flipped true this) s = (Some x', Some y')
          /\ x + x' == Gen.size this + 2 * p3 (Gen.padding this)
          /\ y + y' == Gen.size this + 2 * p0 (Gen.padding this)).
Proof.
  assert (H7 : n 7 == 7) by reflexivity.
  assert (H8 : n 8 == 8) by reflexivity.
  assert (H1 : n 1 == 1) by reflexivity.
  split; [unfold coords, row, col; do 2 f_equal; lia|].
  split.
  { unfold cellCentre. simpl. rewrite !n_add, !n_sub, H7, H1. field. }
  split.
  { unfold cellCentre. simpl. rewrite !n_sub, H7. field. }
  unfold arrowEnd, arrowC, arrowR, rc2xy, addQ, row, col. simpl.
  destruct (Config.col2n _) as [c|]; [|discriminate].
  destruct (Js.toNumber _) as [k|]; [|discriminate].
  intros x y [= <- <-]. eexists _, _. split; [reflexivity|].
  split.
  - rewrite !n_sub, H7, H8. field.
  - rewrite !n_add, !n_sub, H7, H1. field.
Qed.

Lemma flip_is_half_turn_sample :
  arrowEnd (Gen.set_flipped false sampleGenerator) "a1"
  = (Some (n (8 - (7 - 0)) * (400 / 8) - 400 / 8 / 2 + 0),
     Some (n (7 - (1 - 1) + 1) * (400 / 8) - 400 / 8 / 2 + 0))
  /\ exists x' y',
       arrowEnd (Gen.set_flipped true sampleGenerator) "a1"
       = (Some x', Some y')
       /\ n (8 - (7 - 0)) * (400 / 8) - 400 / 8 / 2 + 0 + x' == 400 + 2 * 0
       /\ n (7 - (1 - 1) + 1) * (400 / 8) - 400 / 8 / 2 + 0 + y'
          == 400 + 2 * 0.
Proof.
  split; [reflexivity|].
  apply (flip_is_half_turn sampleGenerator "a1" 0 0). reflexivity.
Defined.

(** ** Highlighted squares *)

Lemma arrayIncludes_In l x : Js.arrayIncludes l x = true <-> In x l.
Proof.
  unfold Js.arrayIncludes. rewrite existsb_exists. split.
  - intros (y & Hy & Heq). apply String.eqb_eq in Heq. now subst.
  - intros H. exists x. split; [exact H|apply String.eqb_refl].
Qed.

(** X11.  Highlights.  Every highlighted name that is a square gets one
    highlight fill, in the one cell that shows that square and on that
    cell's rectangle; every highlight fill comes from a highlighted
    square; and a name that is none of the 64 squares matches no cell, so
    it is ignored without an error. *)
Theorem highlighted_squares_are_filled this :
  (forall s,
     In s (Gen.highlightedSquares this) -> Chess.isSquare s = true ->
     exists i j,
       (0 <= i <= 7)%Z /\ (0 <= j <= 7)%Z
       /\ coords (Gen.flipped this) i j = Some s
       /\ highlightFill this i j
          = [FillRect
               ((Gen.size this / 8) * n (7 - j + 1) - Gen.size this / 8
                + p3 (Gen.padding this))
               ((Gen.size this / 8) * n i + p0 (Gen.padding this))
               (Gen.size this / 8) (Gen.size this / 8)
               (Gen.highlight this)]
       /\ forall i' j',
            (0 <= i' <= 7)%Z -> (0 <= j' <= 7)%Z ->
            coords (Gen.flipped this) i' j' = Some s -> i' = i /\ j' = j)
  /\ (forall i j,
        highlightFill this i j <> [] ->
        exists s,
          In s (Gen.highlightedSquares this)
          /\ coords (Gen.flipped this) i j = Some s)
  /\ (forall s i j,
        Chess.isSquare s = false ->
        (0 <= i <= 7)%Z -> (0 <= j <= 7)%Z ->
        coords (Gen.flipped this) i j <> Some s).
Proof.
  split; [|split].
  - intros s Hin Hs.
    destruct (square_cell (Gen.flipped this) s Hs) as (i & j & Hi & Hj & Hc).
    exists i, j. split; [exact Hi|]. split; [exact Hj|]. split; [exact Hc|].
    split.
    + unfold highlightFill. rewrite Hc.
      now rewrite (proj2 (arrayIncludes_In _ _) Hin).
    + intros i' j' Hi' Hj' Hc'.
      apply (coords_inj (Gen.flipped this)); try assumption. congruence.
  - intros i j. unfold highlightFill.
    destruct (coords _ _ _) as [s|]; [|congruence].
    destruct (Js.arrayIncludes _ _) eqn:Hin; [|congruence].
    intros _. exists s. split; [now apply arrayIncludes_In|reflexivity].
  - intros s i j Hs Hi Hj Hc.
    destruct (coords_square (Gen.flipped this) i j Hi Hj) as (t & Ht & Hsq).
    congruence.
Qed.

Lemma highlighted_squares_are_filled_sample :
  In "a1" (Gen.highlightedSquares (highlightSquares ["a1"; "z9"] sampleGenerator))
  /\ Chess.isSquare "a1" = true /\ Chess.isSquare "z9" = false
  /\ highlightFill (highlightSquares ["a1"; "z9"] sampleGenerator) 7 7 <> []
  /\ coords false 7 7 <> Some "z9".
Proof.
  split; [left; reflexivity|]. split; [reflexivity|]. split; [reflexivity|].
  split; [discriminate|].
  apply (highlighted_squares_are_filled
           (highlightSquares ["a1"; "z9"] sampleGenerator));
    [reflexivity|lia|lia].
Defined.

Local Close Scope Q_scope.

(** ** Grids of any size *)

Lemma charAt_cols_off j : 8 <= j -> Js.charAt Config.cols j = None.
Proof.
  intros Hj. unfold Js.charAt.
  destruct (j <? 0) eqn:Hneg; [reflexivity|].
  assert (H : (8 <= Z.to_nat j)%nat) by lia.
  destruct (Z.to_nat j) as [|[|[|[|[|[|[|[|k]]]]]]]]; try lia.
  simpl. now destruct k.
Qed.

Lemma isSquare_rank_off a z :
  z <= 0 -> Chess.isSquare (String a (Js.numToString z)) = false.
Proof.
  intros Hz. unfold Js.numToString.
  destruct z as [|p|p]; [| lia |]; simpl.
  - now rewrite andb_false_r.
  - destruct (NilZero.string_of_uint (Pos.to_uint p)); [|reflexivity].
    simpl. now rewrite andb_false_r.
Qed.

Lemma put_off_board p i j b :
  8 <= i \/ 8 <= j -> Chess.put p (squareOfCell i j) b = b.
Proof.
  intros H. unfold Chess.put.
  destruct (negb _); [reflexivity|].
  unfold squareOfCell, Js.charPlusNum.
  destruct (Js.charAt Config.cols j) as [a|] eqn:Ha; [|reflexivity].
  destruct H as [H|H];
    [|rewrite charAt_cols_off in Ha by exact H; discriminate].
  now rewrite isSquare_rank_off by lia.
Qed.

Lemma loadArrayRow_off cells : forall i j b,
  8 <= i \/ 8 <= j -> loadArrayRow cells i j b = b.
Proof.
  induction cells as [|cell cells IH]; intros i j b H; simpl; [reflexivity|].
  rewrite put_off_board by exact H.
  destruct (isPieceCode cell); apply IH; lia.
Qed.

Lemma loadArrayRow_take cells : forall i j b,
  0 <= j <= 8 ->
  loadArrayRow cells i j b
  = loadArrayRow (take (Z.to_nat (8 - j)) cells) i j b.
Proof.
  induction cells as [|cell cells IH]; intros i j b Hj.
  - now rewrite take_nil.
  - destruct (Z.eq_dec j 8) as [->|Hne].
    + simpl take. simpl (loadArrayRow [] _ _ _).
      apply loadArrayRow_off. lia.
    + replace (Z.to_nat (8 - j)) with (S (Z.to_nat (8 - (j + 1)))) by lia.
      simpl. apply IH. lia.
Qed.

Lemma loadArrayRows_off rows : forall i b,
  8 <= i -> loadArrayRows rows i b = b.
Proof.
  induction rows as [|cells rows IH]; intros i b H; simpl; [reflexivity|].
  rewrite loadArrayRow_off by lia. apply IH. lia.
Qed.

Lemma loadArrayRows_take rows : forall i b,
  0 <= i <= 8 ->
  loadArrayRows rows i b
  = loadArrayRows (take (Z.to_nat (8 - i)) (map (take 8) rows)) i b.
Proof.
  induction rows as [|cells rows IH]; intros i b Hi.
  - simpl. now rewrite take_nil.
  - destruct (Z.eq_dec i 8) as [->|Hne].
    + simpl take. simpl (loadArrayRows [] _ _).
      apply loadArrayRows_off. lia.
    + replace (Z.to_nat (8 - i)) with (S (Z.to_nat (8 - (i + 1)))) by lia.
      simpl. rewrite (loadArrayRow_take cells i 0 b) by lia.
      apply IH. lia.
Qed.

Lemma loadArrayRows_size array :
  isBoardGrid array = true -> oneKingEach array = true ->
  size (Chess.squares (loadArrayRows array 0 Chess.clear)) = pieceCells array.
Proof.
  intros Hgrid Hkings. pose proof (isBoardGrid_cells array Hgrid) as Hok.
  destruct (foldl_loadCell (indexRows array 0) Hok (NoDup_indexRows array 0)
              (fun c => oneKingEach_cells array c Hkings))
    as (Hsize & _ & _).
  now rewrite loadArrayRows_fold, Hsize, filter_indexRows.
Qed.

Lemma loadArrayRows_get array (i j : nat) cells cell :
  isBoardGrid array = true -> oneKingEach array = true ->
  array !! i = Some cells -> cells !! j = Some cell ->
  (Z.of_nat i <= 7 /\ Z.of_nat j <= 7)
  /\ Chess.get (squareName (Z.of_nat j) (8 - Z.of_nat i))
               (loadArrayRows array 0 Chess.clear)
     = if lowersToPiece cell then Some (pieceOfCell cell) else None.
Proof.
  intros Hgrid Hkings Hi Hj.
  pose proof (isBoardGrid_cells array Hgrid) as Hok.
  destruct (foldl_loadCell (indexRows array 0) Hok (NoDup_indexRows array 0)
              (fun c => oneKingEach_cells array c Hkings))
    as (_ & Hget & _).
  assert (Hin : (0 + Z.of_nat i, Z.of_nat j, cell) ∈ indexRows array 0).
  { apply elem_of_indexRows. exists i, j, cells. now repeat split. }
  specialize (Hget _ Hin). simpl in Hget.
  rewrite Forall_forall in Hok. destruct (Hok _ Hin) as [[Hbi Hbj] _].
  simpl in Hbi, Hbj.
  rewrite (proj1 (squareOfCell_name _ _ Hbi Hbj)) in Hget.
  rewrite Z.add_0_l in Hget. rewrite loadArrayRows_fold.
  split; [lia|exact Hget].
Qed.

Lemma isBoardGrid_take array :
  singleChars array = true ->
  isBoardGrid (take 8 (map (take 8) array)) = true.
Proof.
  unfold singleChars, isBoardGrid. intros H.
  apply andb_true_iff. split.
  - apply Nat.leb_le. rewrite length_take. lia.
  - rewrite forallb_forall in H. apply forallb_forall. intros cells Hin.
    apply list_elem_of_In, elem_of_take in Hin as (k & Hk & _).
    rewrite list_lookup_fmap in Hk.
    destruct (array !! k) as [row|] eqn:Hrow; [|discriminate].
    injection Hk as <-.
    apply andb_true_iff. split.
    + apply Nat.leb_le. rewrite length_take. lia.
    + apply forallb_forall. intros cell Hcell.
      apply list_elem_of_In, elem_of_take in Hcell as (l & Hl & _).
      assert (Hrow' : In row array).
      { apply list_elem_of_In, list_elem_of_lookup. now exists k. }
      specialize (H row Hrow'). rewrite forallb_forall in H.
      apply H. apply list_elem_of_In, list_elem_of_lookup. now exists l.
Qed.

(** X12.  [loadArray] on a grid of any size reads its first 8 rows and the
    first 8 cells of each: cells beyond them name no square and are
    dropped without an error.  When every cell is empty or one character
    and that 8 by 8 corner has at most one white-king cell and at most
    one black-king cell, the number of occupied squares is the number of
    cells of the corner whose lower case is a piece kind. *)
Theorem loadArray_ignores_cells_off_the_board array this :
  loadArray array this = loadArray (take 8 (map (take 8) array)) this
  /\ (singleChars array = true ->
      oneKingEach (take 8 (map (take 8) array)) = true ->
      size (Chess.squares (Gen.chess (loadArray array this)))
      = pieceCells (take 8 (map (take 8) array))).
Proof.
  assert (H : loadArrayRows array 0 Chess.clear
              = loadArrayRows (take 8 (map (take 8) array)) 0 Chess.clear).
  { now rewrite (loadArrayRows_take array 0 Chess.clear) by lia. }
  split.
  - unfold loadArray. now rewrite H.
  - intros Hsingle Hkings. unfold loadArray. simpl. rewrite H.
    apply loadArrayRows_size; [now apply isBoardGrid_take|exact Hkings].
Qed.

Lemma loadArray_ignores_cells_off_the_board_sample :
  singleChars wideGrid = true
  /\ oneKingEach (take 8 (map (take 8) wideGrid)) = true
  /\ loadArray tallGrid sampleGenerator
     = loadArray (replicate 8 emptyRank) sampleGenerator
  /\ size (Chess.squares (Gen.chess (loadArray wideGrid sampleGenerator)))
     = 64%nat.
Proof.
  split; [reflexivity|]. split; [reflexivity|]. split.
  - exact (proj1 (loadArray_ignores_cells_off_the_board tallGrid
                    sampleGenerator)).
  - apply (loadArray_ignores_cells_off_the_board wideGrid sampleGenerator);
      reflexivity.
Defined.

(** ** What [loadArray] puts on the board *)

Lemma lowerChar_idem c : Js.lowerChar (Js.lowerChar c) = Js.lowerChar c.
Proof. destruct c as [[] [] [] [] [] [] [] []]; reflexivity. Qed.

Lemma toLowerCase_idem s :
  Js.toLowerCase (Js.toLowerCase s) = Js.toLowerCase s.
Proof.
  induction s as [|c s IH]; simpl; [reflexivity|].
  now rewrite lowerChar_idem, IH.
Qed.

Lemma drawable_pieceOfCode cell :
  isPieceCode cell = true -> drawable (pieceOfCode cell) = true.
Proof.
  unfold isPieceCode, drawable, pieceOfCode. simpl.
  rewrite toLowerCase_idem. now destruct cell.
Qed.

Lemma loadArrayRow_loadedFrom (P : string -> Prop) cells : forall i j b,
  (forall c, In c cells -> P c) ->
  loadedFrom P b -> loadedFrom P (loadArrayRow cells i j b).
Proof.
  induction cells as [|cell cells IH]; intros i j b HP Hb; simpl;
    [exact Hb|].
  apply IH; [intros c Hc; apply HP; now right|].
  destruct (isPieceCode cell) eqn:Hcode; [|exact Hb].
  unfold Chess.put.
  destruct (negb (Js.includes Chess.symbols
                    (Js.toLowerCase (type (pieceOfCode cell))))); [exact Hb|].
  destruct (squareOfCell i j) as [t|]; [|exact Hb].
  destruct (Chess.isSquare t) eqn:Ht; [|exact Hb].
  destruct (Chess.kingAllowed (pieceOfCode cell) t b); [|exact Hb].
  cbn [andb]. intros s p. board_lookup. cbn [Chess.squares].
  destruct (decide (t = s)) as [<-|Hne].
  - rewrite lookup_insert_eq. intros [= <-]. split; [exact Ht|].
    exists cell. split; [apply HP; now left|now split].
  - rewrite lookup_insert_ne by exact Hne. apply Hb.
Qed.

Lemma loadArrayRows_loadedFrom (P : string -> Prop) rows : forall i b,
  (forall r c, In r rows -> In c r -> P c) ->
  loadedFrom P b -> loadedFrom P (loadArrayRows rows i b).
Proof.
  induction rows as [|cells rows IH]; intros i b HP Hb; simpl; [exact Hb|].
  apply IH; [intros r c Hr; apply HP; now right|].
  apply loadArrayRow_loadedFrom; [|exact Hb].
  intros c Hc. apply (HP cells); [now left|exact Hc].
Qed.

(** X13.  After [loadArray], whatever the grid, every occupied entry of
    the board is one of the 64 squares and holds a piece built from a
    cell of this grid: its type is the lower-cased cell, its colour is "w"
    or "b", and it passes the guard the renderer puts before drawing a
    sprite.  Nothing of an earlier position is left, and nothing is
    stored under a name that is not a square. *)
Theorem loadArray_places_drawable_pieces array this s piece :
  Gen.chess (loadArray array this) !! s = Some piece ->
  Chess.isSquare s = true
  /\ (exists cells cell,
        In cells array /\ In cell cells
        /\ cell <> "" /\ type piece = Js.toLowerCase cell)
  /\ (color piece = "w" \/ color piece = "b")
  /\ drawable piece = true.
Proof.
  unfold loadArray. simpl. intros H.
  assert (Hinv : loadedFrom (fun c => exists r, In r array /\ In c r)
                            (loadArrayRows array 0 Chess.clear)).
  { apply loadArrayRows_loadedFrom; [intros r c Hr Hc; now exists r|].
    intros t p Hp. board_lookup. unfold Chess.clear in Hp.
    cbn [Chess.squares] in Hp. now rewrite lookup_empty in Hp. }
  destruct (Hinv s piece H) as (Hs & cell & (r & Hr & Hc) & Hcode & ->).
  split; [exact Hs|]. split; [|split].
  - exists r, cell. repeat split; try assumption.
    intros ->. discriminate Hcode.
  - unfold pieceOfCode. cbn [color].
    destruct (Js.includes Config.white cell); [now left|now right].
  - now apply drawable_pieceOfCode.
Qed.

Lemma loadArray_places_drawable_pieces_sample :
  Gen.chess sampleGenerator !! "a8" = Some {| type := "k"; color := "w" |}
  /\ Chess.isSquare "a8" = true
  /\ drawable {| type := "k"; color := "w" |} = true.
Proof.
  split; [reflexivity|].
  destruct (loadArray_places_drawable_pieces kingGrid
              (ChessImageGenerator sampleEnv sampleOptions) "a8"
              {| type := "k"; color := "w" |} eq_refl)
    as (Hs & _ & _ & Hd).
  split; [exact Hs|exact Hd].
Defined.

(** ** From the grid to the picture *)

Local Open Scope Q_scope.

Lemma lowersToPiece_drawable cell :
  lowersToPiece cell = true -> drawable (pieceOfCell cell) = true.
Proof.
  unfold lowersToPiece, pieceKinds, drawable, pieceOfCell. cbn [type existsb].
  rewrite toLowerCase_idem. intros H.
  repeat (apply orb_true_iff in H as [H|H];
          [apply String.eqb_eq in H; rewrite H; reflexivity|]).
  discriminate H.
Qed.

Lemma pieceDraw_piece E this i j s piece :
  coords (Gen.flipped this) i j = Some s ->
  Gen.chess this !! s = Some piece ->
  drawable piece = true ->
  loadImage E (spriteFile E this piece) = true ->
  pieceDraw E this i j
  = Ok [DrawImage (spriteFile E this piece)
          ((Gen.size this / 8) * n (7 - j + 1) - Gen.size this / 8
           + p3 (Gen.padding this))
          ((Gen.size this / 8) * n i + p0 (Gen.padding this))
          (Gen.size this / 8) (Gen.size this / 8)].
Proof.
  intros Hc Hget Hd Hl. unfold pieceDraw. rewrite Hc. simpl Chess.get.
  rewrite Hget. unfold drawable in Hd. rewrite Hd, Hl. reflexivity.
Qed.

(** X14.  The picture has the layout of the grid.  For a grid of at most
    8 by 8 cells, each empty or one character, with at most one
    white-king cell and at most one black-king cell, a cell in row a,
    column b whose lower case is a piece kind is drawn, when its sprite loads, as that piece's sprite in a
    rectangle of side size/8 at column b, row a of the board area
    (counted from the left and top padding); on a flipped board it is
    drawn at column 7 - b, row 7 - a. *)
Theorem grid_layout_is_picture_layout E array this (a b : nat) cells cell :
  isBoardGrid array = true -> oneKingEach array = true ->
  array !! a = Some cells -> cells !! b = Some cell ->
  lowersToPiece cell = true ->
  loadImage E (spriteFile E this (pieceOfCell cell)) = true ->
  exists i j x y,
    (0 <= i <= 7)%Z /\ (0 <= j <= 7)%Z
    /\ pieceDraw E (loadArray array this) i j
       = Ok [DrawImage (spriteFile E this (pieceOfCell cell)) x y
               (Gen.size this / 8) (Gen.size this / 8)]
    /\ x == p3 (Gen.padding this)
            + n (if Gen.flipped this then 7 - Z.of_nat b else Z.of_nat b)
              * (Gen.size this / 8)
    /\ y == p0 (Gen.padding this)
            + n (if Gen.flipped this then 7 - Z.of_nat a else Z.of_nat a)
              * (Gen.size this / 8).
Proof.
  intros Hgrid Hkings Ha Hb Hletter Hload.
  destruct (loadArrayRows_get array a b cells cell Hgrid Hkings Ha Hb)
    as [[Ha7 Hb7] Hget].
  rewrite Hletter in Hget.
  set (i := (if Gen.flipped this then 7 - Z.of_nat a else Z.of_nat a)%Z).
  set (j := (if Gen.flipped this then Z.of_nat b else 7 - Z.of_nat b)%Z).
  assert (Hi : (0 <= i <= 7)%Z) by (unfold i; destruct (Gen.flipped this); lia).
  assert (Hj : (0 <= j <= 7)%Z) by (unfold j; destruct (Gen.flipped this); lia).
  assert (Hc : coords (Gen.flipped this) i j
               = squareName (Z.of_nat b) (8 - Z.of_nat a)).
  { rewrite coords_squareOfCell, squareName_squareOfCell by lia.
    unfold i, j, row, col. destruct (Gen.flipped this); f_equal; lia. }
  destruct (squareName (Z.of_nat b) (8 - Z.of_nat a)) as [s|] eqn:Hs;
    [|discriminate Hget].
  simpl in Hget.
  exists i, j. eexists _, _. split; [exact Hi|]. split; [exact Hj|].
  split.
  - apply (pieceDraw_piece E (loadArray array this) i j s (pieceOfCell cell));
      [exact Hc|exact Hget|now apply lowersToPiece_drawable|exact Hload].
  - simpl. unfold i, j.
    assert (H7 : n 7 == 7) by reflexivity.
    assert (H1 : n 1 == 1) by reflexivity.
    destruct (Gen.flipped this); rewrite ?n_add, ?n_sub, ?H7, ?H1;
      split; field.
Qed.

Lemma grid_layout_is_picture_layout_sample :
  isBoardGrid kingGrid = true
  /\ oneKingEach kingGrid = true
  /\ loadImage sampleEnv
       (spriteFile sampleEnv (ChessImageGenerator sampleEnv sampleOptions)
                   (pieceOfCell "K")) = true
  /\ exists i j x y,
       (0 <= i <= 7)%Z /\ (0 <= j <= 7)%Z
       /\ pieceDraw sampleEnv sampleGenerator i j
          = Ok [DrawImage "resources/merida/wk.png" x y (400 / 8) (400 / 8)]
       /\ x == 0 + n 0 * (400 / 8) /\ y == 0 + n 0 * (400 / 8).
Proof.
  split; [reflexivity|]. split; [reflexivity|]. split; [reflexivity|].
  exact (grid_layout_is_picture_layout sampleEnv kingGrid
           (ChessImageGenerator sampleEnv sampleOptions) 0 0 _ "K"
           eq_refl eq_refl eq_refl eq_refl eq_refl eq_refl).
Defined.

(** X15.  The sprites of the picture are the pieces of the 64 squares.
    A piece that stands on a square, passes the piece guard and whose
    sprite loads is drawn in exactly one cell, the one that shows its
    square, on that cell's rectangle; every sprite drawn in a cell is the
    sprite of the piece on that cell's square; and a cell whose square is
    empty, or holds a piece that fails the guard, draws no sprite and
    throws nothing. *)
Theorem sprites_are_the_pieces E this :
  (forall s piece,
     Chess.isSquare s = true -> Gen.chess this !! s = Some piece ->
     drawable piece = true ->
     loadImage E (spriteFile E this piece) = true ->
     exists i j,
       (0 <= i <= 7)%Z /\ (0 <= j <= 7)%Z
       /\ coords (Gen.flipped this) i j = Some s
       /\ pieceDraw E this i j
          = Ok [DrawImage (spriteFile E this piece)
                  ((Gen.size this / 8) * n (7 - j + 1) - Gen.size this / 8
                   + p3 (Gen.padding this))
                  ((Gen.size this / 8) * n i + p0 (Gen.padding this))
                  (Gen.size this / 8) (Gen.size this / 8)]
       /\ forall i' j',
            (0 <= i' <= 7)%Z -> (0 <= j' <= 7)%Z ->
            coords (Gen.flipped this) i' j' = Some s -> i' = i /\ j' = j)
  /\ (forall i j file x y w h,
        In (DrawImage file x y w h) (cellOps E this i j) ->
        exists s piece,
          coords (Gen.flipped this) i j = Some s
          /\ Gen.chess this !! s = Some piece
          /\ drawable piece = true
          /\ file = spriteFile E this piece)
  /\ (forall i j,
        (forall piece,
           Chess.get (coords (Gen.flipped this) i j) (Gen.chess this)
           = Some piece -> drawable piece = false) ->
        pieceDraw E this i j = Ok []).
Proof.
  split; [|split].
  - intros s piece Hs Hget Hd Hl.
    destruct (square_cell (Gen.flipped this) s Hs) as (i & j & Hi & Hj & Hc).
    exists i, j. split; [exact Hi|]. split; [exact Hj|]. split; [exact Hc|].
    split; [now apply (pieceDraw_piece E this i j s)|].
    intros i' j' Hi' Hj' Hc'.
    apply (coords_inj (Gen.flipped this)); try assumption. congruence.
  - intros i j file x y w h. unfold cellOps, drawCell.
    destruct (pieceDraw E this i j) as [sprite|e] eqn:Hp; simpl; [|tauto].
    rewrite !in_app_iff. intros [H|[H|H]].
    + unfold darkFill in H. destruct (_ =? _)%Z; simpl in H; [|tauto].
      destruct H as [H|[]]. discriminate H.
    + unfold highlightFill in H.
      destruct (coords _ _ _); simpl in H; [|tauto].
      destruct (Js.arrayIncludes _ _); simpl in H; [|tauto].
      destruct H as [H|[]]. discriminate H.
    + unfold pieceDraw in Hp.
      destruct (coords (Gen.flipped this) i j) as [s|] eqn:Hc; simpl in Hp;
        [|injection Hp as <-; destruct H].
      destruct (Gen.chess this !! s) as [piece|] eqn:Hget;
        [|injection Hp as <-; destruct H].
      destruct (_ && _) eqn:Hd; [|injection Hp as <-; destruct H].
      destruct (loadImage E _); [|discriminate].
      injection Hp as <-. destruct H as [[= <- _ _ _ _]|[]].
      exists s, piece. now repeat split.
  - intros i j H. unfold pieceDraw.
    destruct (Chess.get _ _) as [piece|]; [|reflexivity].
    specialize (H piece eq_refl). unfold drawable in H. now rewrite H.
Qed.

Lemma sprites_are_the_pieces_sample :
  Chess.isSquare "a8" = true
  /\ Gen.chess sampleGenerator !! "a8" = Some {| type := "k"; color := "w" |}
  /\ exists i j,
       (0 <= i <= 7)%Z /\ (0 <= j <= 7)%Z
       /\ coords false i j = Some "a8"
       /\ pieceDraw sampleEnv sampleGenerator i j
          = Ok [DrawImage "resources/merida/wk.png"
                  ((400 / 8) * n (7 - j + 1) - 400 / 8 + 0)
                  ((400 / 8) * n i + 0) (400 / 8) (400 / 8)]
       /\ forall i' j',
            (0 <= i' <= 7)%Z -> (0 <= j' <= 7)%Z ->
            coords false i' j' = Some "a8" -> i' = i /\ j' = j.
Proof.
  split; [reflexivity|]. split; [reflexivity|].
  exact (proj1 (sprites_are_the_pieces sampleEnv sampleGenerator)
           "a8" {| type := "k"; color := "w" |}
           eq_refl eq_refl eq_refl eq_refl).
Defined.



(** X17.  The constructor uses every truthy option as given: a non-zero
    size, a non-empty colour or style string, any padding array (an
    all-zero one too), and the flip flag; and a new object is not ready,
    has no highlighted squares and no arrows. *)
Theorem truthy_options_are_used E o :
  (forall q, opt_size o = Some q -> ~ q == 0 ->
     Gen.size (ChessImageGenerator E o) = q)
  /\ (forall p, opt_padding o = Some p ->
        Gen.padding (ChessImageGenerator E o) = p)
  /\ (forall c, opt_light o = Some c -> c <> "" ->
        Gen.light (ChessImageGenerator E o) = c)
  /\ (forall c, opt_dark o = Some c -> c <> "" ->
        Gen.dark (ChessImageGenerator E o) = c)
  /\ (forall c, opt_highlight o = Some c -> c <> "" ->
        Gen.highlight (ChessImageGenerator E o) = c)
  /\ (forall c, opt_style o = Some c -> c <> "" ->
        Gen.style (ChessImageGenerator E o) = c)
  /\ (forall f, opt_flipped o = Some f ->
        Gen.flipped (ChessImageGenerator E o) = f)
  /\ Gen.ready (ChessImageGenerator E o) = false
  /\ Gen.highlightedSquares (ChessImageGenerator E o) = []
  /\ Gen.arrows (ChessImageGenerator E o) = None.
Proof.
  assert (Hstr : forall (c d : string), c <> "" -> Js.or (Some c) d = c).
  { intros c d Hc. unfold Js.or, Js.truthy, Js.truthy_string.
    destruct (String.eqb_spec c ""); [contradiction|reflexivity]. }
  unfold ChessImageGenerator. simpl.
  split.
  { intros q -> Hq. unfold Js.or, Js.truthy, Js.truthy_number.
    destruct (Qeq_bool q 0) eqn:Hz; [|reflexivity].
    apply Qeq_bool_iff in Hz. contradiction. }
  split; [now intros p ->|].
  split; [intros c -> Hc; now apply Hstr|].
  split; [intros c -> Hc; now apply Hstr|].
  split; [intros c -> Hc; now apply Hstr|].
  split; [intros c -> Hc; now apply Hstr|].
  split; [intros [] ->; reflexivity|].
  now repeat split.
Qed.

Lemma truthy_options_are_used_sample :
  opt_size sampleOptions = Some 400 /\ ~ 400 == 0
  /\ opt_padding sampleOptions = Some noPadding
  /\ Gen.size (ChessImageGenerator sampleEnv sampleOptions) = 400
  /\ Gen.padding (ChessImageGenerator sampleEnv sampleOptions) = noPadding.
Proof.
  assert (H : ~ 400 == 0) by (intros H; vm_compute in H; discriminate H).
  split; [reflexivity|]. split; [exact H|]. split; [reflexivity|].
  destruct (truthy_options_are_used sampleEnv sampleOptions)
    as (Hsize & Hpad & _).
  split; [exact (Hsize 400 eq_refl H)|exact (Hpad noPadding eq_refl)].
Defined.

Local Close Scope Q_scope.

(** ** The order of calls of the usage script *)

Lemma generateBuffer_returns E this :
  Gen.ready this = true -> Gen.arrows this <> None ->
  (forall s piece,
     Chess.isSquare s = true -> Gen.chess this !! s = Some piece ->
     drawable piece = true ->
     loadImage E (spriteFile E this piece) = true) ->
  exists canvas, snd (generateBuffer E this) = Ok canvas.
Proof.
  intros Hready Harrows Hsprites.
  unfold generateBuffer, render. rewrite Hready. simpl.
  assert (Hok : isOk (drawBoard E this) = true).
  { apply drawBoard_isOk. intros i j Hi Hj. apply pieceDraw_isOk.
    intros piece Hget Hd.
    destruct (coords_square (Gen.flipped this) i j Hi Hj) as (s & Hc & Hs).
    rewrite Hc in Hget. now apply (Hsprites s). }
  destruct (drawBoard E this) as [cells|e]; [|discriminate]. simpl.
  unfold drawArrows. destruct (Gen.arrows this) as [l|]; [|congruence].
  simpl. now eexists.
Qed.

(** X18.  The order of calls of the usage script works: construct,
    [highlightSquares], [loadFEN] with a notation the rules engine
    accepts, [addArrows], then [generatePNG].  If the sprites of the
    pieces the engine put on the 64 squares load, [generatePNG] hands the
    file writer a canvas for the given path, drawn with the highlighted
    squares and the arrows of those calls. *)
Theorem usage_script_renders E options squares fen arrows pngPath :
  fst (load E fen (newChess E)) = true ->
  (forall s piece,
     Chess.isSquare s = true ->
     snd (load E fen (newChess E)) !! s = Some piece ->
     drawable piece = true ->
     loadImage E (spriteFile E (ChessImageGenerator E options) piece) = true) ->
  exists canvas,
    snd (generatePNG E pngPath
           (run E [CallHighlightSquares squares; CallLoadFEN fen;
                   CallAddArrows arrows]
                (ChessImageGenerator E options)))
    = Ok (pngPath, canvas)
    /\ Gen.highlightedSquares
         (run E [CallHighlightSquares squares; CallLoadFEN fen;
                 CallAddArrows arrows]
              (ChessImageGenerator E options)) = squares
    /\ Gen.arrows
         (run E [CallHighlightSquares squares; CallLoadFEN fen;
                 CallAddArrows arrows]
              (ChessImageGenerator E options)) = Some arrows.
Proof.
  intros Haccept Hsprites. simpl run. unfold loadFEN. simpl Gen.chess.
  destruct (load E fen (newChess E)) as [accepted b] eqn:Hload.
  simpl in Haccept, Hsprites. subst accepted. simpl.
  set (this := addArrows arrows _).
  destruct (generateBuffer_returns E this) as [canvas Hc];
    [reflexivity|discriminate|exact Hsprites|].
  exists canvas. split; [|now split].
  unfold generatePNG, generateBuffer in *.
  change (Gen.ready this) with true in *. simpl in *.
  now rewrite Hc.
Qed.

Lemma usage_script_renders_sample :
  fst (load scriptEnv scriptFen (newChess scriptEnv)) = true
  /\ size (Chess.squares (snd (load scriptEnv scriptFen (newChess scriptEnv))))
     = 32%nat
  /\ snd (load scriptEnv scriptFen (newChess scriptEnv)) !! "e4"
     = Some {| type := "p"; color := "w" |}
  /\ exists canvas,
       snd (generatePNG scriptEnv "test.png"
              (run scriptEnv
                   [CallHighlightSquares scriptSquares; CallLoadFEN scriptFen;
                    CallAddArrows scriptArrows]
                   (ChessImageGenerator scriptEnv scriptOptions)))
       = Ok ("test.png", canvas)
       /\ Gen.highlightedSquares
            (run scriptEnv
                 [CallHighlightSquares scriptSquares; CallLoadFEN scriptFen;
                  CallAddArrows scriptArrows]
                 (ChessImageGenerator scriptEnv scriptOptions)) = scriptSquares
       /\ Gen.arrows
            (run scriptEnv
                 [CallHighlightSquares scriptSquares; CallLoadFEN scriptFen;
                  CallAddArrows scriptArrows]
                 (ChessImageGenerator scriptEnv scriptOptions))
          = Some scriptArrows.
Proof.
  split; [reflexivity|]. split; [vm_compute; reflexivity|].
  split; [vm_compute; reflexivity|].
  apply (usage_script_renders scriptEnv scriptOptions scriptSquares scriptFen
           scriptArrows "test.png"); [reflexivity|].
  intros s piece _ H _. revert s piece H.
  change (map_Forall
            (fun (_ : string) piece =>
               loadImage scriptEnv
                 (spriteFile scriptEnv
                    (ChessImageGenerator scriptEnv scriptOptions) piece)
               = true)
            (Chess.squares scriptPosition)).
  apply (bool_decide_unpack _). vm_compute. exact I.
Defined.

(** ** Arrow ends on the board *)

Local Open Scope Q_scope.

Lemma slot_inside (q l size : Q) (c : Z) :
  0 < size -> size == 8 * q -> (1 <= c <= 8)%Z ->
  l < n c * q - q / 2 + l /\ n c * q - q / 2 + l < l + size.
Proof.
  intros Hsize Hq Hc.
  assert (Hh : q / 2 == q * (1 # 2)) by field. rewrite Hh.
  assert (H : (c = 1 \/ c = 2 \/ c = 3 \/ c = 4 \/ c = 5 \/ c = 6 \/ c = 7
               \/ c = 8)%Z) by lia.
  unfold n.
  repeat (destruct H as [H|H]; [subst c|]); try subst c;
    repeat match goal with
           | |- context [inject_Z ?z] =>
               let v := eval vm_compute in (inject_Z z) in
               change (inject_Z z) with v
           end;
    split; lra.
Qed.

(** X19.  For a positive size, the pixel point computed for an arrow end
    on any of the 64 squares lies strictly inside the board area, on
    either orientation: arrows between squares never start or end in the
    padding. *)
Theorem arrow_ends_inside_board this s :
  Chess.isSquare s = true -> 0 < Gen.size this ->
  exists x y,
    arrowEnd this s = (Some x, Some y)
    /\ p3 (Gen.padding this) < x
    /\ x < p3 (Gen.padding this) + Gen.size this
    /\ p0 (Gen.padding this) < y
    /\ y < p0 (Gen.padding this) + Gen.size this.
Proof.
  intros Hs Hsize.
  destruct (isSquare_squareName s Hs) as (f & r & Hf & Hr & Hname).
  destruct (squareName_arrow (Gen.flipped this) f r s Hf Hr Hname)
    as (HC & HR & _).
  unfold arrowEnd. rewrite HC, HR. simpl.
  assert (Hq : Gen.size this == 8 * (Gen.size this / 8)) by field.
  eexists _, _. split; [reflexivity|].
  destruct (slot_inside (Gen.size this / 8) (p3 (Gen.padding this))
              (Gen.size this) (8 - col (Gen.flipped this) f) Hsize Hq)
    as [Hx1 Hx2]; [unfold col; destruct (Gen.flipped this); lia|].
  destruct (slot_inside (Gen.size this / 8) (p0 (Gen.padding this))
              (Gen.size this) (row (Gen.flipped this) (r - 1)) Hsize Hq)
    as [Hy1 Hy2]; [unfold row; destruct (Gen.flipped this); lia|].
  now repeat split.
Qed.

Lemma arrow_ends_inside_board_sample :
  Chess.isSquare "h6" = true /\ 0 < Gen.size sampleGenerator
  /\ exists x y,
       arrowEnd sampleGenerator "h6" = (Some x, Some y)
       /\ 0 < x /\ x < 0 + 400 /\ 0 < y /\ y < 0 + 400.
Proof.
  assert (Hsize : 0 < Gen.size sampleGenerator) by reflexivity.
  split; [reflexivity|]. split; [exact Hsize|].
  exact (arrow_ends_inside_board sampleGenerator "h6" eq_refl Hsize).
Defined.

Local Close Scope Q_scope.
